(** * SPHinXsys level set: a shallow embedding of [level_set.cpp]

    The development follows [src/shared/geometries/level_set.cpp]:
    [BaseLevelSet::computeHeaviside]; the constructor of [LevelSet] with
    its classification, tagging and numeric passes, its interface-cleaning
    pipeline and its probes; the classification pass of
    [RefinedLevelSet]; and the level searches, probes and cleaning of
    [MultilevelLevelSet].

    Numbers.  [Real] is the source's [double].  The geometric code only
    subtracts, multiplies, divides and compares, so it is embedded over
    the rationals [Q], where it runs; [computeHeaviside] calls [sin] and
    is embedded over the real numbers [R].  Neither rounds.  Where a
    property depends on rounding, the code is also given over the
    primitive binary64 numbers (module [Binary64]) and evaluated there.
    [size_t] is a [Z] taken modulo [2^64]; loop counters that only count
    down or up to a small bound are [nat].

    Memory.  A [LevelSetDataPackage*] is a handle: the index of the
    package in the pool it was allocated from.  Reading a [std::vector]
    past its end is undefined behaviour in the source and is the outcome
    [OutOfBounds] here; [exit(1)] is the outcome [Exits 1]. *)

From Stdlib Require Import ZArith QArith Qabs Qminmax Qround Reals Psatz List.
From Stdlib Require PrimFloat.
From stdpp Require Import base option list gmap.

Set Default Proof Using "Type".

(** ** Numbers and vectors *)

Abbreviation Real := Q.
Abbreviation Vecd := (list Q).
Abbreviation Vecu := (list Z).

(** [a < b] on [Real], as the boolean test of an [if]. *)
Definition Qltb (a b : Real) : bool :=
  (Qnum a * QDen b <? Qnum b * QDen a)%Z.

(** [size_t] arithmetic: every result is reduced modulo [2^64]. *)
Definition size_t_modulus : Z := 2 ^ 64.
Definition size_t_wrap (z : Z) : Z := z mod size_t_modulus.
Definition size_t_sub (a b : Z) : Z := size_t_wrap (a - b).

(** [Vecd * Real] and [Real * Vecd]: scaling of every component. *)
Definition Vecd_times_Real (v : Vecd) (a : Real) : Vecd :=
  map (fun x => (x * a)%Q) v.
Definition Real_times_Vecd (a : Real) (v : Vecd) : Vecd :=
  map (fun x => (a * x)%Q) v.

(** [Vecd + Vecd], component by component. *)
Fixpoint Vecd_add (u v : Vecd) : Vecd :=
  match u, v with
  | x :: u', y :: v' => (x + y)%Q :: Vecd_add u' v'
  | _, _ => []
  end.

(** Modelled from the spec: [getMaxAbsoluteElement] is declared outside
    the sources; the spec describes it as the maximum absolute component
    of its argument. *)
Definition getMaxAbsoluteElement (v : Vecd) : Real :=
  fold_left (fun m x => Qmax (Qabs x) m) v 0%Q.

(** ** Outcomes of a call *)

Inductive Outcome (A : Type) : Type :=
| Returns (a : A)
| Exits (code : Z)
| OutOfBounds (index : nat).
Arguments Returns {A} a.
Arguments Exits {A} code.
Arguments OutOfBounds {A} index.

Definition obind {A B} (m : Outcome A) (k : A -> Outcome B) : Outcome B :=
  match m with
  | Returns a => k a
  | Exits c => Exits c
  | OutOfBounds i => OutOfBounds i
  end.

Notation "'let*' x ':=' m 'in' k" := (obind m (fun x => k))
  (at level 10, x name, m at level 100, k at level 200).

(** [v[i]] on a [std::vector]. *)
Definition vec_at {A} (v : list A) (i : nat) : Outcome A :=
  match v !! i with
  | Some a => Returns a
  | None => OutOfBounds i
  end.

(** ** The data model *)

(** The external shape: the three queries the level set consumes. *)
Record Shape := {
  findSignedDistance : Vecd -> Real;
  findNormalDirection : Vecd -> Vecd;
  checkContain : Vecd -> bool
}.

(** A data package.  [phi_] is the block of signed distances, read by its
    node index; the remaining node arrays are only touched by code outside
    [level_set.cpp] and are reached through [probeMesh] below.  The
    constructor [LevelSetDataPackage()] clears [is_core_pkg_]. *)
Record LevelSetDataPackage := {
  is_core_pkg_ : bool;
  is_inner_pkg_ : bool;
  pkg_index_ : Vecu;
  data_lower_bound_ : Vecd;
  phi_ : Vecu -> Real
}.

Definition set_is_core_pkg_ (b : bool) (p : LevelSetDataPackage) :=
  {| is_core_pkg_ := b; is_inner_pkg_ := is_inner_pkg_ p;
     pkg_index_ := pkg_index_ p; data_lower_bound_ := data_lower_bound_ p;
     phi_ := phi_ p |}.

Definition set_is_inner_pkg_ (b : bool) (p : LevelSetDataPackage) :=
  {| is_core_pkg_ := is_core_pkg_ p; is_inner_pkg_ := b;
     pkg_index_ := pkg_index_ p; data_lower_bound_ := data_lower_bound_ p;
     phi_ := phi_ p |}.

(** The member functions that [std::bind] turns into package functors,
    and the two package collections they are run over. *)
Inductive PackageFunctor :=
| updateNormalDirectionForAPackage
| updateNoneNormalizedNormalDirectionForAPackage
| updateKernelIntegralsForAPackage
| stepReinitializationForAPackage
| markNearInterfaceForAPackage
| redistanceInterfaceForAPackage.

Inductive PackageSet := core_data_pkgs | inner_data_pkgs.

(** The node arrays a probe can read. *)
Inductive RealField := phi_addrs_ | kernel_weight_addrs_.
Inductive VecdField := n_addrs_ | none_normalized_n_addrs_ | kernel_gradient_addrs_.

(** ** [BaseLevelSet] *)

Module BaseLevelSet.

Local Open Scope R_scope.

(** [computeHeaviside]: two [if]s in sequence over the local
    [heaviside], which starts at [0.0]. *)
Definition computeHeaviside (phi half_width : R) : R :=
  let heaviside := 0 in
  let normalized_phi := phi / half_width in
  let heaviside :=
    if Rlt_dec phi half_width then
      if Rgt_dec phi (- half_width) then
        (0.5 + 0.5 * normalized_phi) + 0.5 * sin (PI * normalized_phi) / PI
      else heaviside
    else heaviside in
  let heaviside :=
    if Rgt_dec normalized_phi 1 then 1 else heaviside in
  heaviside.

End BaseLevelSet.

(** ** The same arithmetic in binary64 *)

Module Binary64.
Import PrimFloat.
Local Open Scope float_scope.

(** The test of the loop of [getMeshLevel],
    [h_ratio - global_h_ratio_ > -Eps], on doubles. *)
Definition passes_level_test (Eps h_ratio global_h_ratio : float) : bool :=
  - Eps <? h_ratio - global_h_ratio.

(** [BaseLevelSet::computeHeaviside] on doubles, every operation rounded
    as the machine rounds it.  [sin] is the routine of the C library and
    [Pi] a constant of a header, both outside the sources. *)
Definition computeHeaviside (sin : float -> float) (Pi : float)
    (phi half_width : float) : float :=
  let heaviside := 0 in
  let normalized_phi := phi / half_width in
  let heaviside :=
    if (phi <? half_width) && (- half_width <? phi)
    then (0.5 + 0.5 * normalized_phi) + 0.5 * sin (Pi * normalized_phi) / Pi
    else heaviside in
  let heaviside :=
    if 1 <? normalized_phi then 1 else heaviside in
  heaviside.





(** The largest double below [1], its distance to [1], and the double
    [2^-52]. *)
Definition below_one : float := 0x1.fffffffffffffp-1.
Definition half_Eps_double : float := 0x1p-53.
Definition Eps_double : float := 0x1p-52.

Definition one : float := 1.

End Binary64.

(** ** [LevelSet] *)

Module LevelSet.

Record t := {
  shape_ : Shape;
  grid_spacing_ : Real;
  data_spacing_ : Real;
  buffer_width_ : Z;
  number_of_cells_ : Vecu;
  global_h_ratio_ : Real;
  small_shift_factor_ : Real;
  data_pkg_pool_ : list LevelSetDataPackage;
  singular_data_pkgs_addrs_ : list nat;
  data_pkg_addrs_ : gmap Vecu nat;
  core_data_pkgs_ : list nat;
  inner_data_pkgs_ : list nat
}.

Definition with_data_pkg_pool_ (pool : list LevelSetDataPackage) (s : t) : t :=
  {| shape_ := shape_ s; grid_spacing_ := grid_spacing_ s;
     data_spacing_ := data_spacing_ s; buffer_width_ := buffer_width_ s;
     number_of_cells_ := number_of_cells_ s;
     global_h_ratio_ := global_h_ratio_ s;
     small_shift_factor_ := small_shift_factor_ s;
     data_pkg_pool_ := pool;
     singular_data_pkgs_addrs_ := singular_data_pkgs_addrs_ s;
     data_pkg_addrs_ := data_pkg_addrs_ s;
     core_data_pkgs_ := core_data_pkgs_ s;
     inner_data_pkgs_ := inner_data_pkgs_ s |}.

Definition with_singular_data_pkgs_addrs_ (l : list nat) (s : t) : t :=
  {| shape_ := shape_ s; grid_spacing_ := grid_spacing_ s;
     data_spacing_ := data_spacing_ s; buffer_width_ := buffer_width_ s;
     number_of_cells_ := number_of_cells_ s;
     global_h_ratio_ := global_h_ratio_ s;
     small_shift_factor_ := small_shift_factor_ s;
     data_pkg_pool_ := data_pkg_pool_ s;
     singular_data_pkgs_addrs_ := l;
     data_pkg_addrs_ := data_pkg_addrs_ s;
     core_data_pkgs_ := core_data_pkgs_ s;
     inner_data_pkgs_ := inner_data_pkgs_ s |}.

Definition with_data_pkg_addrs_ (m : gmap Vecu nat) (s : t) : t :=
  {| shape_ := shape_ s; grid_spacing_ := grid_spacing_ s;
     data_spacing_ := data_spacing_ s; buffer_width_ := buffer_width_ s;
     number_of_cells_ := number_of_cells_ s;
     global_h_ratio_ := global_h_ratio_ s;
     small_shift_factor_ := small_shift_factor_ s;
     data_pkg_pool_ := data_pkg_pool_ s;
     singular_data_pkgs_addrs_ := singular_data_pkgs_addrs_ s;
     data_pkg_addrs_ := m;
     core_data_pkgs_ := core_data_pkgs_ s;
     inner_data_pkgs_ := inner_data_pkgs_ s |}.

Definition with_core_data_pkgs_ (l : list nat) (s : t) : t :=
  {| shape_ := shape_ s; grid_spacing_ := grid_spacing_ s;
     data_spacing_ := data_spacing_ s; buffer_width_ := buffer_width_ s;
     number_of_cells_ := number_of_cells_ s;
     global_h_ratio_ := global_h_ratio_ s;
     small_shift_factor_ := small_shift_factor_ s;
     data_pkg_pool_ := data_pkg_pool_ s;
     singular_data_pkgs_addrs_ := singular_data_pkgs_addrs_ s;
     data_pkg_addrs_ := data_pkg_addrs_ s;
     core_data_pkgs_ := l;
     inner_data_pkgs_ := inner_data_pkgs_ s |}.

Definition with_inner_data_pkgs_ (l : list nat) (s : t) : t :=
  {| shape_ := shape_ s; grid_spacing_ := grid_spacing_ s;
     data_spacing_ := data_spacing_ s; buffer_width_ := buffer_width_ s;
     number_of_cells_ := number_of_cells_ s;
     global_h_ratio_ := global_h_ratio_ s;
     small_shift_factor_ := small_shift_factor_ s;
     data_pkg_pool_ := data_pkg_pool_ s;
     singular_data_pkgs_addrs_ := singular_data_pkgs_addrs_ s;
     data_pkg_addrs_ := data_pkg_addrs_ s;
     core_data_pkgs_ := core_data_pkgs_ s;
     inner_data_pkgs_ := l |}.

(** *** Construction and classification *)

(** Modelled from the spec: the base-class constructor
    [MeshWithDataPackages] is outside the sources.  It fixes the geometry
    of the mesh and leaves the pool, the address matrix and the package
    collections empty. *)
Definition MeshWithDataPackages (shape : Shape) (grid_spacing data_spacing : Real)
    (buffer_size : Z) (number_of_cells : Vecu)
    (global_h_ratio small_shift_factor : Real) : t :=
  {| shape_ := shape; grid_spacing_ := grid_spacing;
     data_spacing_ := data_spacing; buffer_width_ := buffer_size;
     number_of_cells_ := number_of_cells;
     global_h_ratio_ := global_h_ratio;
     small_shift_factor_ := small_shift_factor;
     data_pkg_pool_ := [];
     singular_data_pkgs_addrs_ := [];
     data_pkg_addrs_ := ∅;
     core_data_pkgs_ := [];
     inner_data_pkgs_ := [] |}.

(** Modelled from the spec: [initializeASingularDataPackage] is outside
    the sources.  It takes a package from the pool, fills it with the one
    uniform signed distance it is given and appends its address to
    [singular_data_pkgs_addrs_]. *)
Definition initializeASingularDataPackage (far_field_level_set : Real) (s : t) : t :=
  let new_data_pkg := length (data_pkg_pool_ s) in
  let pkg := {| is_core_pkg_ := false; is_inner_pkg_ := false;
                pkg_index_ := []; data_lower_bound_ := [];
                phi_ := fun _ => far_field_level_set |} in
  with_singular_data_pkgs_addrs_ (singular_data_pkgs_addrs_ s ++ [new_data_pkg])
    (with_data_pkg_pool_ (data_pkg_pool_ s ++ [pkg]) s).

(** The body of the five-argument constructor, run on the mesh the base
    class has built. *)
Definition LevelSet_buffered (mesh : t) : t :=
  let far_field_distance := (grid_spacing_ mesh * inject_Z (buffer_width_ mesh))%Q in
  initializeASingularDataPackage far_field_distance
    (initializeASingularDataPackage (- far_field_distance)%Q mesh).

(** [assignDataPackageAddress]: the cell's entry of the address matrix. *)
Definition assignDataPackageAddress (cell_index : Vecu) (pkg : nat) (s : t) : t :=
  with_data_pkg_addrs_ (<[cell_index := pkg]> (data_pkg_addrs_ s)) s.

(** Every cell index below [upper], in the order of the sequential mesh
    iterator. *)
Fixpoint mesh_cells (upper : Vecu) : list Vecu :=
  match upper with
  | [] => [[]]
  | n :: rest =>
      flat_map (fun i => map (cons i) (mesh_cells rest))
               (map Z.of_nat (seq 0 (Z.to_nat n)))
  end.

(** [MeshIterator_parallel(Vecu(0), ub, f)], one cell after the other. *)
Fixpoint MeshIterator (cells : list Vecu)
    (f : Vecu -> t -> Outcome t) (s : t) : Outcome t :=
  match cells with
  | [] => Returns s
  | c :: rest => let* s' := f c s in MeshIterator rest f s'
  end.

Section Mesh.
(** Member functions of the mesh base classes and of the package, outside
    the sources.  The three conversions read the geometry of the mesh
    alone, which is fixed when the mesh is built. *)
Variable CellPositionFromIndex : Vecu -> Vecd.
Variable GridPositionFromCellPosition : Vecd -> Vecd.
Variable CellIndexFromPosition : Vecd -> Vecu.
Variable initializeBasicData : Shape -> Vecd -> Real -> Vecu -> Real.

(** [createDataPackage]: a fresh package from the pool, its geometry and
    basic data set, bound to [cell_index]. *)
Definition createDataPackage (cell_index : Vecu) (cell_position : Vecd)
    (s : t) : nat * t :=
  let new_data_pkg := length (data_pkg_pool_ s) in
  let pkg_lower_bound := GridPositionFromCellPosition cell_position in
  let pkg := {| is_core_pkg_ := false; is_inner_pkg_ := false;
                pkg_index_ := cell_index;
                data_lower_bound_ := pkg_lower_bound;
                phi_ := initializeBasicData (shape_ s) pkg_lower_bound (data_spacing_ s) |} in
  (new_data_pkg,
   assignDataPackageAddress cell_index new_data_pkg
     (with_data_pkg_pool_ (data_pkg_pool_ s ++ [pkg]) s)).

(** The proximity measure of a cell: the largest absolute component of
    [normal_direction * signed_distance] at the cell position. *)
Definition cell_measure (s : t) (cell_index : Vecu) : Real :=
  let cell_position := CellPositionFromIndex cell_index in
  let signed_distance := findSignedDistance (shape_ s) cell_position in
  let normal_direction := findNormalDirection (shape_ s) cell_position in
  getMaxAbsoluteElement (Vecd_times_Real normal_direction signed_distance).

Definition initializeDataInACell (cell_index : Vecu) (s : t) : Outcome t :=
  let cell_position := CellPositionFromIndex cell_index in
  let signed_distance := findSignedDistance (shape_ s) cell_position in
  let normal_direction := findNormalDirection (shape_ s) cell_position in
  let measure := getMaxAbsoluteElement (Vecd_times_Real normal_direction signed_distance) in
  if Qltb measure (grid_spacing_ s) then
    let '(new_data_pkg, s1) := createDataPackage cell_index cell_position s in
    let s2 := with_data_pkg_pool_
                (alter (set_is_core_pkg_ true) new_data_pkg (data_pkg_pool_ s1)) s1 in
    Returns (with_core_data_pkgs_ (core_data_pkgs_ s2 ++ [new_data_pkg]) s2)
  else
    let* singular_data_pkg :=
      (if checkContain (shape_ s) cell_position
       then vec_at (singular_data_pkgs_addrs_ s) 0
       else vec_at (singular_data_pkgs_addrs_ s) 1) in
    Returns (assignDataPackageAddress cell_index singular_data_pkg s).

(** The classification pass of the four-argument constructor: the
    buffered constructor, then [initializeDataInACell] on every cell. *)
Definition classify (mesh : t) : Outcome t :=
  let s := LevelSet_buffered mesh in
  MeshIterator (mesh_cells (number_of_cells_ s)) initializeDataInACell s.

(** The binding of a cell after classification.  Either the cell has a
    package of its own, taken from the pool for it, flagged core and
    listed with the core packages ... *)
Definition has_core_package (s : t) (cell_index : Vecu) : Prop :=
  exists pkg_addr pkg,
    data_pkg_addrs_ s !! cell_index = Some pkg_addr /\
    data_pkg_pool_ s !! pkg_addr = Some pkg /\
    (pkg_addr ∉ singular_data_pkgs_addrs_ s) /\
    pkg_index_ pkg = cell_index /\
    is_core_pkg_ pkg = true /\
    pkg_addr ∈ core_data_pkgs_ s.

(** ... or it shares the singular package [singular_data_pkgs_addrs_[i]],
    whose nodes all hold the signed distance [far_field]. *)
Definition has_singular_package (s : t) (cell_index : Vecu) (i : nat)
    (far_field : Real) : Prop :=
  exists pkg_addr pkg,
    singular_data_pkgs_addrs_ s !! i = Some pkg_addr /\
    data_pkg_addrs_ s !! cell_index = Some pkg_addr /\
    data_pkg_pool_ s !! pkg_addr = Some pkg /\
    forall node, phi_ pkg node = far_field.

(** What the classification pass started on [mesh] leaves at a cell it
    has visited: a core package where the proximity test holds, and
    otherwise the singular package the containment test picks. *)
Definition classified (mesh s : t) (cell_index : Vecu) : Prop :=
  let far_field_distance := (grid_spacing_ mesh * inject_Z (buffer_width_ mesh))%Q in
  if Qltb (cell_measure mesh cell_index) (grid_spacing_ mesh)
  then has_core_package s cell_index
  else if checkContain (shape_ mesh) (CellPositionFromIndex cell_index)
       then has_singular_package s cell_index 0 (- far_field_distance)%Q
       else has_singular_package s cell_index 1 far_field_distance.

(** What the pass never changes: the shape, the geometry, and the two
    singular packages the constructor put at the head of the pool. *)
Definition classification_invariant (mesh s : t) : Prop :=
  let far_field_distance := (grid_spacing_ mesh * inject_Z (buffer_width_ mesh))%Q in
  shape_ s = shape_ mesh /\
  grid_spacing_ s = grid_spacing_ mesh /\
  number_of_cells_ s = number_of_cells_ mesh /\
  singular_data_pkgs_addrs_ s = [0; 1]%nat /\
  exists inside outside,
    data_pkg_pool_ s !! 0%nat = Some inside /\
    data_pkg_pool_ s !! 1%nat = Some outside /\
    (forall node, phi_ inside node = (- far_field_distance)%Q) /\
    (forall node, phi_ outside node = far_field_distance).

(** One level set extends another away from [cell_index]: the other
    cells keep their binding, the packages of the pool stay where they
    are, and the collections only grow. *)
Definition extends_away_from (cell_index : Vecu) (s s' : t) : Prop :=
  (forall c, c <> cell_index -> data_pkg_addrs_ s' !! c = data_pkg_addrs_ s !! c) /\
  (forall k pkg, data_pkg_pool_ s !! k = Some pkg -> data_pkg_pool_ s' !! k = Some pkg) /\
  singular_data_pkgs_addrs_ s' = singular_data_pkgs_addrs_ s /\
  (forall k, k ∈ core_data_pkgs_ s -> k ∈ core_data_pkgs_ s').

(** *** Inner packages *)

(** [isInnerPackage] is a member function of the mesh base class, outside
    the sources; it reads the packages around the cell. *)
Variable isInnerPackage : t -> Vecu -> bool.

(** [DataPackageFromCellIndex]: the address the matrix holds for the
    cell.  The entry of a cell no address was assigned to points to no
    package of the pool. *)
Definition DataPackageFromCellIndex (s : t) (cell_index : Vecu) : nat :=
  default (length (data_pkg_pool_ s)) (data_pkg_addrs_ s !! cell_index).

Definition tagACellIsInnerPackage (cell_index : Vecu) (s : t) : Outcome t :=
  let is_inner_pkg := isInnerPackage s cell_index in
  if is_inner_pkg then
    let current_data_pkg := DataPackageFromCellIndex s cell_index in
    let* pkg := vec_at (data_pkg_pool_ s) current_data_pkg in
    if is_core_pkg_ pkg then
      let s1 := with_data_pkg_pool_
                  (alter (set_is_inner_pkg_ true) current_data_pkg (data_pkg_pool_ s)) s in
      Returns (with_inner_data_pkgs_ (inner_data_pkgs_ s1 ++ [current_data_pkg]) s1)
    else
      let cell_position := CellPositionFromIndex cell_index in
      let '(new_data_pkg, s1) := createDataPackage cell_index cell_position s in
      let s2 := with_data_pkg_pool_
                  (alter (set_is_inner_pkg_ true) new_data_pkg (data_pkg_pool_ s1)) s1 in
      Returns (with_inner_data_pkgs_ (inner_data_pkgs_ s2 ++ [new_data_pkg]) s2)
  else Returns s.

(** The first pass of [finishDataPackages], run after classification. *)
Definition tag_inner_packages (s : t) : Outcome t :=
  MeshIterator (mesh_cells (number_of_cells_ s)) tagACellIsInnerPackage s.

(** The classification pass followed by the tagging pass. *)
Definition classify_and_tag (mesh : t) : Outcome t :=
  let* s := classify mesh in tag_inner_packages s.

(** The cell has a package of its own that is not core: a padding
    package, flagged inner and listed with the inner packages. *)
Definition has_padding_package (s : t) (cell_index : Vecu) : Prop :=
  exists pkg_addr pkg,
    data_pkg_addrs_ s !! cell_index = Some pkg_addr /\
    data_pkg_pool_ s !! pkg_addr = Some pkg /\
    (pkg_addr ∉ singular_data_pkgs_addrs_ s) /\
    pkg_index_ pkg = cell_index /\
    is_core_pkg_ pkg = false /\
    is_inner_pkg_ pkg = true /\
    pkg_addr ∈ inner_data_pkgs_ s.

(** What a classified cell looks like during and after the tagging pass:
    as classification left it, or rebound to a padding package where the
    proximity test fails. *)
Definition tagged (mesh s : t) (cell_index : Vecu) : Prop :=
  classified mesh s cell_index \/
  (Qltb (cell_measure mesh cell_index) (grid_spacing_ mesh) = false /\
   has_padding_package s cell_index).

(** What the tagging pass keeps: the classification invariant, singular
    packages that are flagged neither core nor inner, and a list of inner
    packages whose entries are flagged packages of the pool other than
    the singular ones. *)
Definition tagging_invariant (mesh s : t) : Prop :=
  classification_invariant mesh s /\
  (forall k pkg, k ∈ singular_data_pkgs_addrs_ s -> data_pkg_pool_ s !! k = Some pkg ->
                 is_core_pkg_ pkg = false /\ is_inner_pkg_ pkg = false) /\
  (forall k, k ∈ inner_data_pkgs_ s ->
             (k ∉ singular_data_pkgs_addrs_ s) /\
             exists pkg, data_pkg_pool_ s !! k = Some pkg /\ is_inner_pkg_ pkg = true).

(** One level set extends another away from [cell_index] up to the inner
    flags: as [extends_away_from], but a package may have gained the
    inner flag, and the list of inner packages may have grown. *)
Definition tagging_extends (cell_index : Vecu) (s s' : t) : Prop :=
  (forall c, c <> cell_index -> data_pkg_addrs_ s' !! c = data_pkg_addrs_ s !! c) /\
  (forall k pkg, data_pkg_pool_ s !! k = Some pkg ->
                 data_pkg_pool_ s' !! k = Some pkg \/
                 data_pkg_pool_ s' !! k = Some (set_is_inner_pkg_ true pkg)) /\
  singular_data_pkgs_addrs_ s' = singular_data_pkgs_addrs_ s /\
  core_data_pkgs_ s' = core_data_pkgs_ s /\
  (forall k, k ∈ inner_data_pkgs_ s -> k ∈ inner_data_pkgs_ s').

(** *** Probes *)

(** [probeMesh<DataType, PackageDataAddressType, MemPtr>] is a template of
    a header outside the sources, one instance per node array. *)
Variable probeMesh_Real : RealField -> t -> Vecd -> Real.
Variable probeMesh_Vecd : VecdField -> t -> Vecd -> Vecd.

Definition probeNormalDirection (s : t) (position : Vecd) : Vecd :=
  probeMesh_Vecd n_addrs_ s position.

Definition probeNoneNormalizedNormalDirection (s : t) (position : Vecd) : Vecd :=
  probeMesh_Vecd none_normalized_n_addrs_ s position.

Definition probeSignedDistance (s : t) (position : Vecd) : Real :=
  probeMesh_Real phi_addrs_ s position.

Definition probeKernelIntegral (s : t) (position : Vecd) (h_ratio : Real) : Real :=
  probeMesh_Real kernel_weight_addrs_ s position.

Definition probeKernelGradientIntegral (s : t) (position : Vecd) (h_ratio : Real) : Vecd :=
  probeMesh_Vecd kernel_gradient_addrs_ s position.

(** The loop of [probeIsWithinMeshBound] over the components of the cell
    index; [cell_pos], [number_of_cells_] and [position] have the
    dimension of the mesh.  Both comparisons are unsigned. *)
Fixpoint within_bound_loop (cell_pos number_of_cells : Vecu)
    (is_bounded : bool) : bool :=
  match cell_pos, number_of_cells with
  | c :: cell_pos', n :: number_of_cells' =>
      let is_bounded := if (c <? 2)%Z then false else is_bounded in
      let is_bounded := if (c >? size_t_sub n 2)%Z then false else is_bounded in
      within_bound_loop cell_pos' number_of_cells' is_bounded
  | _, _ => is_bounded
  end.

Definition probeIsWithinMeshBound (s : t) (position : Vecd) : bool :=
  let is_bounded := true in
  let cell_pos := CellIndexFromPosition position in
  within_bound_loop cell_pos (number_of_cells_ s) is_bounded.

End Mesh.

(** *** Passes over the packages *)

(** The state a pass runs in: the level set, and a ghost log with one
    entry per call of [PackageIterator_parallel], in call order. *)
Definition World : Type := t * list (PackageFunctor * PackageSet).

Definition select (pkgs : PackageSet) (s : t) : list nat :=
  match pkgs with
  | core_data_pkgs => core_data_pkgs_ s
  | inner_data_pkgs => inner_data_pkgs_ s
  end.

(** [for (size_t i = first; i < bound; ++i) body], with [steps] bounding
    the number of tests of the loop condition that succeed. *)
Fixpoint for_loop_from {W : Type} (steps i bound : nat)
    (body : nat -> W -> W) (w : W) : W :=
  match steps with
  | O => w
  | S steps' =>
      if (i <? bound)%nat
      then for_loop_from steps' (S i) bound body (body i w)
      else w
  end.

Definition for_loop {W : Type} (first bound : nat)
    (body : nat -> W -> W) (w : W) : W :=
  for_loop_from (bound - first) first bound body w.

Section Passes.
(** The member functions of [LevelSetDataPackage] are outside the
    sources, and so is [redistanceInterfaceForAPackage]; each is taken as
    its effect on the level set when run on the package at an address. *)
Variable computeNormalDirection : nat -> t -> t.
Variable computeNoneNormalizedNormalDirection : nat -> t -> t.
Variable computeKernelIntegrals : nat -> t -> t.
Variable stepReinitialization : nat -> t -> t.
Variable markNearInterface_pkg : Real -> nat -> t -> t.
Variable redistanceInterface_pkg : nat -> t -> t.

(** The bodies of the [...ForAPackage] member functions. *)
Definition call (f : PackageFunctor) (pkg : nat) (s : t) : t :=
  match f with
  | updateNormalDirectionForAPackage => computeNormalDirection pkg s
  | updateNoneNormalizedNormalDirectionForAPackage =>
      computeNoneNormalizedNormalDirection pkg s
  | updateKernelIntegralsForAPackage => computeKernelIntegrals pkg s
  | stepReinitializationForAPackage => stepReinitialization pkg s
  | markNearInterfaceForAPackage =>
      markNearInterface_pkg (small_shift_factor_ s) pkg s
  | redistanceInterfaceForAPackage => redistanceInterface_pkg pkg s
  end.

(** One sweep of a functor over a collection, on the level set alone. *)
Definition sweep (pkgs : PackageSet) (f : PackageFunctor) (s : t) : t :=
  fold_left (fun s' pkg => call f pkg s') (select pkgs s) s.

(** Modelled from the spec: [PackageIterator_parallel] is a template of a
    header outside the sources.  It runs the functor on every package of
    the collection and returns when all are done; the packages are taken
    one after the other here. *)
Definition PackageIterator_parallel (pkgs : PackageSet) (f : PackageFunctor)
    (w : World) : World :=
  (sweep pkgs f (fst w), snd w ++ [(f, pkgs)]).

Definition updateNormalDirection (w : World) : World :=
  PackageIterator_parallel inner_data_pkgs updateNormalDirectionForAPackage w.

Definition updateNoneNormalizedNormalDirection (w : World) : World :=
  PackageIterator_parallel inner_data_pkgs
    updateNoneNormalizedNormalDirectionForAPackage w.

Definition updateKernelIntegrals (w : World) : World :=
  PackageIterator_parallel inner_data_pkgs updateKernelIntegralsForAPackage w.

Definition reinitializeLevelSet (w : World) : World :=
  for_loop 0 50
    (fun _ w' =>
       PackageIterator_parallel inner_data_pkgs stepReinitializationForAPackage w')
    w.

Definition markNearInterface (w : World) : World :=
  PackageIterator_parallel core_data_pkgs markNearInterfaceForAPackage w.

Definition redistanceInterface (w : World) : World :=
  PackageIterator_parallel core_data_pkgs redistanceInterfaceForAPackage w.

Definition cleanInterface (isSmoothed : bool) (w : World) : World :=
  let w := markNearInterface w in
  let w := redistanceInterface w in
  let w := reinitializeLevelSet w in
  let w := updateNormalDirection w in
  updateKernelIntegrals w.

End Passes.

End LevelSet.

(** ** [RefinedLevelSet] *)

Module RefinedLevelSet.

Section Refined.
(** The conversions are those of the refined mesh; [probeMesh] and
    [isWithinCorePackage] are run on the coarse mesh.  All are outside the
    sources. *)
Variable CellPositionFromIndex : Vecu -> Vecd.
Variable GridPositionFromCellPosition : Vecd -> Vecd.
Variable initializeBasicData : Shape -> Vecd -> Real -> Vecu -> Real.
Variable probeMesh_Real : RealField -> LevelSet.t -> Vecd -> Real.
Variable isWithinCorePackage : LevelSet.t -> Vecd -> bool.

Definition initializeDataInACellFromCoarse (coarse_mesh_ : LevelSet.t)
    (cell_index : Vecu) (s : LevelSet.t) : Outcome LevelSet.t :=
  let cell_position := CellPositionFromIndex cell_index in
  let* singular_data_pkg :=
    (if Qltb (LevelSet.probeSignedDistance probeMesh_Real coarse_mesh_ cell_position) 0
     then vec_at (LevelSet.singular_data_pkgs_addrs_ s) 0
     else vec_at (LevelSet.singular_data_pkgs_addrs_ s) 1) in
  let s := LevelSet.assignDataPackageAddress cell_index singular_data_pkg s in
  if isWithinCorePackage coarse_mesh_ cell_position then
    let signed_distance := findSignedDistance (LevelSet.shape_ s) cell_position in
    let normal_direction := findNormalDirection (LevelSet.shape_ s) cell_position in
    let measure :=
      getMaxAbsoluteElement (Vecd_times_Real normal_direction signed_distance) in
    if Qltb measure (LevelSet.grid_spacing_ s) then
      let '(new_data_pkg, s1) :=
        LevelSet.createDataPackage GridPositionFromCellPosition initializeBasicData
          cell_index cell_position s in
      let s2 := LevelSet.with_data_pkg_pool_
                  (alter (set_is_core_pkg_ true) new_data_pkg
                         (LevelSet.data_pkg_pool_ s1)) s1 in
      Returns (LevelSet.with_core_data_pkgs_
                 (LevelSet.core_data_pkgs_ s2 ++ [new_data_pkg]) s2)
    else Returns s
  else Returns s.

(** The classification pass of the constructor of a refined level. *)
Definition classify_from_coarse (coarse_mesh_ s : LevelSet.t) : Outcome LevelSet.t :=
  LevelSet.MeshIterator (LevelSet.mesh_cells (LevelSet.number_of_cells_ s))
    (initializeDataInACellFromCoarse coarse_mesh_) s.

(** What the pass leaves at a cell it has visited: a core package where
    the coarse core region holds the cell position and the proximity test
    holds, and otherwise the singular package the sign of the coarse
    signed distance picks. *)
Definition classified_from_coarse (coarse_mesh_ mesh s : LevelSet.t)
    (cell_index : Vecu) : Prop :=
  let cell_position := CellPositionFromIndex cell_index in
  let far_field_distance :=
    (LevelSet.grid_spacing_ mesh * inject_Z (LevelSet.buffer_width_ mesh))%Q in
  if isWithinCorePackage coarse_mesh_ cell_position
     && Qltb (LevelSet.cell_measure CellPositionFromIndex mesh cell_index)
             (LevelSet.grid_spacing_ mesh)
  then LevelSet.has_core_package s cell_index
  else if Qltb (LevelSet.probeSignedDistance probeMesh_Real coarse_mesh_ cell_position) 0
       then LevelSet.has_singular_package s cell_index 0 (- far_field_distance)%Q
       else LevelSet.has_singular_package s cell_index 1 far_field_distance.

End Refined.

End RefinedLevelSet.

(** ** [MultilevelLevelSet] *)

Module MultilevelLevelSet.

Record t := {
  total_levels_ : nat;
  mesh_levels_ : list LevelSet.t
}.

(** The ratios of the levels, coarsest first. *)
Definition level_ratios (ml : t) : list Real :=
  LevelSet.global_h_ratio_ <$> mesh_levels_ ml.

(** The declared number of levels is the number of levels held. *)
Definition well_formed (ml : t) : Prop :=
  total_levels_ ml = length (mesh_levels_ ml).

Section Levels.
(** The tolerance [Eps] is a global constant of a header outside the
    sources; the default of the probes' [h_ratio] argument is set in the
    class declaration, outside the sources as well. *)
Variable Eps : Real.
Variable h_ratio_default : Real.
Variable probeMesh_Real : RealField -> LevelSet.t -> Vecd -> Real.
Variable probeMesh_Vecd : VecdField -> LevelSet.t -> Vecd -> Vecd.

(** The loop [for (level = total_levels_; level != 0; --level)] of
    [getMeshLevel], entered with the counter at [level]. *)
Fixpoint getMeshLevel_from (ml : t) (level : nat) (h_ratio : Real) : Outcome nat :=
  match level with
  | O => Exits 1
  | S level' =>
      let* m := vec_at (mesh_levels_ ml) level' in
      if Qltb (- Eps) (h_ratio - LevelSet.global_h_ratio_ m)
      then Returns level'
      else getMeshLevel_from ml level' h_ratio
  end.

Definition getMeshLevel (ml : t) (h_ratio : Real) : Outcome nat :=
  getMeshLevel_from ml (total_levels_ ml) h_ratio.

(** The blend weight both probes compute. *)
Definition blend_weight (fine coarse : LevelSet.t) (h_ratio : Real) : Real :=
  ((LevelSet.global_h_ratio_ fine - h_ratio) /
   (LevelSet.global_h_ratio_ fine - LevelSet.global_h_ratio_ coarse))%Q.

(** [probeKernelIntegral]: every [mesh_levels_[...]] of the body reads one
    of two elements, the first of them [mesh_levels_[coarse_level + 1]]. *)
Definition probeKernelIntegral (ml : t) (position : Vecd) (h_ratio : Real)
    : Outcome Real :=
  let* coarse_level := getMeshLevel ml h_ratio in
  let* fine := vec_at (mesh_levels_ ml) (coarse_level + 1) in
  let* coarse := vec_at (mesh_levels_ ml) coarse_level in
  let alpha := blend_weight fine coarse h_ratio in
  let coarse_level_value :=
    LevelSet.probeKernelIntegral probeMesh_Real coarse position h_ratio_default in
  let fine_level_value :=
    LevelSet.probeKernelIntegral probeMesh_Real fine position h_ratio_default in
  Returns (alpha * coarse_level_value + (1 - alpha) * fine_level_value)%Q.

Definition probeKernelGradientIntegral (ml : t) (position : Vecd) (h_ratio : Real)
    : Outcome Vecd :=
  let* coarse_level := getMeshLevel ml h_ratio in
  let* fine := vec_at (mesh_levels_ ml) (coarse_level + 1) in
  let* coarse := vec_at (mesh_levels_ ml) coarse_level in
  let alpha := blend_weight fine coarse h_ratio in
  let coarse_level_value :=
    LevelSet.probeKernelGradientIntegral probeMesh_Vecd coarse position h_ratio_default in
  let fine_level_value :=
    LevelSet.probeKernelGradientIntegral probeMesh_Vecd fine position h_ratio_default in
  Returns (Vecd_add (Real_times_Vecd alpha coarse_level_value)
                    (Real_times_Vecd (1 - alpha)%Q fine_level_value)).

End Levels.

Section DirectProbes.
(** [isWithinCorePackage] and [CellIndexFromPosition] are member functions
    of the mesh base classes, outside the sources; each level has its own
    geometry, so both take the level they are called on. *)
Variable isWithinCorePackage : LevelSet.t -> Vecd -> bool.
Variable CellIndexFromPosition : LevelSet.t -> Vecd -> Vecu.
Variable probeMesh_Real : RealField -> LevelSet.t -> Vecd -> Real.
Variable probeMesh_Vecd : VecdField -> LevelSet.t -> Vecd -> Vecd.

(** The loop [for (level = total_levels_; level != 0; --level)] of
    [getProbeLevel], entered with the counter at [level]; falling out of
    the loop returns [0]. *)
Fixpoint getProbeLevel_from (ml : t) (level : nat) (position : Vecd) : Outcome nat :=
  match level with
  | O => Returns 0%nat
  | S level' =>
      let* m := vec_at (mesh_levels_ ml) level' in
      if isWithinCorePackage m position
      then Returns level'
      else getProbeLevel_from ml level' position
  end.

Definition getProbeLevel (ml : t) (position : Vecd) : Outcome nat :=
  getProbeLevel_from ml (total_levels_ ml) position.

Definition probeSignedDistance (ml : t) (position : Vecd) : Outcome Real :=
  let* level := getProbeLevel ml position in
  let* m := vec_at (mesh_levels_ ml) level in
  Returns (LevelSet.probeSignedDistance probeMesh_Real m position).

Definition probeNormalDirection (ml : t) (position : Vecd) : Outcome Vecd :=
  let* level := getProbeLevel ml position in
  let* m := vec_at (mesh_levels_ ml) level in
  Returns (LevelSet.probeNormalDirection probeMesh_Vecd m position).

Definition probeNoneNormalizedNormalDirection (ml : t) (position : Vecd)
    : Outcome Vecd :=
  let* level := getProbeLevel ml position in
  let* m := vec_at (mesh_levels_ ml) level in
  Returns (LevelSet.probeNoneNormalizedNormalDirection probeMesh_Vecd m position).

(** The loop [for (l = 0; l != total_levels_; ++l)] of
    [probeIsWithinMeshBound], with [remaining] levels to go from [l];
    the [break] leaves with [is_bounded] cleared. *)
Fixpoint within_bound_levels (ml : t) (remaining l : nat) (position : Vecd)
    : Outcome bool :=
  match remaining with
  | O => Returns true
  | S remaining' =>
      let* m := vec_at (mesh_levels_ ml) l in
      if negb (LevelSet.probeIsWithinMeshBound (CellIndexFromPosition m) m position)
      then Returns false
      else within_bound_levels ml remaining' (S l) position
  end.

Definition probeIsWithinMeshBound (ml : t) (position : Vecd) : Outcome bool :=
  within_bound_levels ml (total_levels_ ml) 0 position.

End DirectProbes.

Section Cleaning.
Variable computeNormalDirection : nat -> LevelSet.t -> LevelSet.t.
Variable computeNoneNormalizedNormalDirection : nat -> LevelSet.t -> LevelSet.t.
Variable computeKernelIntegrals : nat -> LevelSet.t -> LevelSet.t.
Variable stepReinitialization : nat -> LevelSet.t -> LevelSet.t.
Variable markNearInterface_pkg : Real -> nat -> LevelSet.t -> LevelSet.t.
Variable redistanceInterface_pkg : nat -> LevelSet.t -> LevelSet.t.
(** The default of the argument of [LevelSet::cleanInterface] is set in
    the class declaration, outside the sources. *)
Variable isSmoothed_default : bool.

(** [cleanInterface]: [mesh_levels_.back()] is the element at
    [size() - 1]; the hierarchy and the ghost log of the passes are the
    state. *)
Definition cleanInterface (isSmoothed : bool)
    (w : t * list (PackageFunctor * PackageSet))
    : Outcome (t * list (PackageFunctor * PackageSet)) :=
  let ml := fst w in
  let last := (length (mesh_levels_ ml) - 1)%nat in
  let* back := vec_at (mesh_levels_ ml) last in
  let w' := LevelSet.cleanInterface computeNormalDirection
              computeNoneNormalizedNormalDirection computeKernelIntegrals
              stepReinitialization markNearInterface_pkg redistanceInterface_pkg
              isSmoothed_default (back, snd w) in
  Returns ({| total_levels_ := total_levels_ ml;
              mesh_levels_ := <[last := fst w']> (mesh_levels_ ml) |}, snd w').

End Cleaning.

End MultilevelLevelSet.

(** ** Concrete instances *)

(** A positive tolerance to run the level search with: [2^-52], the
    machine epsilon of [double]. *)
Definition Eps_double : Real := 1 # 4503599627370496.

(** Ratios that grow from each level to the next finer one. *)
Fixpoint strictly_increasing (rs : list Real) : bool :=
  match rs with
  | r :: (r' :: _) as rest => Qltb r r' && strictly_increasing rest
  | _ => true
  end.

(** A shape whose boundary is far from everything. *)
Definition far_shape (inside : bool) : Shape :=
  {| findSignedDistance := fun _ => if inside then (-100)%Q else 100%Q;
     findNormalDirection := fun _ => [1%Q; 0%Q];
     checkContain := fun _ => inside |}.

(** A mesh of [8 x 8] cells of spacing [1] with the given ratio. *)
Definition mesh_of_ratio (ratio : Real) : LevelSet.t :=
  LevelSet.MeshWithDataPackages (far_shape false) 1 (1 # 4) 4 [8%Z; 8%Z] ratio 0.

(** A hierarchy of two levels, of ratios [1] and [2]. *)
Definition two_levels : MultilevelLevelSet.t :=
  {| MultilevelLevelSet.total_levels_ := 2;
     MultilevelLevelSet.mesh_levels_ := [mesh_of_ratio 1; mesh_of_ratio 2] |}.

(** A hierarchy of the single level of ratio [1], and one without
    levels. *)
Definition one_level : MultilevelLevelSet.t :=
  {| MultilevelLevelSet.total_levels_ := 1;
     MultilevelLevelSet.mesh_levels_ := [mesh_of_ratio 1] |}.
Definition no_level : MultilevelLevelSet.t :=
  {| MultilevelLevelSet.total_levels_ := 0;
     MultilevelLevelSet.mesh_levels_ := [] |}.

(** A core region that reaches the position on the levels of ratio at
    most [1]. *)
Definition coarse_core_only (s : LevelSet.t) (position : Vecd) : bool :=
  negb (Qltb 1 (LevelSet.global_h_ratio_ s)).

(** Every level of the instances is a mesh of spacing [1] at the
    origin. *)
Definition unit_cell_index_of (s : LevelSet.t) (position : Vecd) : Vecu :=
  map Qfloor position.

(** A hierarchy of two levels, of ratios [1/2] and [1]. *)
Definition half_and_one : MultilevelLevelSet.t :=
  {| MultilevelLevelSet.total_levels_ := 2;
     MultilevelLevelSet.mesh_levels_ := [mesh_of_ratio (1 # 2); mesh_of_ratio 1] |}.

(** Probes that answer with the ratio of the level they are run on. *)
Definition ratio_probe_Real (f : RealField) (s : LevelSet.t) (position : Vecd) : Real :=
  LevelSet.global_h_ratio_ s.
Definition ratio_probe_Vecd (f : VecdField) (s : LevelSet.t) (position : Vecd) : Vecd :=
  [LevelSet.global_h_ratio_ s; LevelSet.global_h_ratio_ s].

(** The cell of a position on a mesh of spacing [1] whose lower bound is
    the origin. *)
Definition unit_cell_index (position : Vecd) : Vecu := map Qfloor position.

(** The position of a cell of that mesh: its centre. *)
Definition unit_cell_position (cell_index : Vecu) : Vecd :=
  map (fun i => (inject_Z i + (1 # 2))%Q) cell_index.

(** The lower corner of the cell around a position of that mesh. *)
Definition unit_grid_position (cell_position : Vecd) : Vecd :=
  map (fun x => (x - (1 # 2))%Q) cell_position.

(** Basic data that hold, at every node, the signed distance of the
    shape at the lower bound of the package. *)
Definition lower_bound_data (shape : Shape) (pkg_lower_bound : Vecd)
    (data_spacing : Real) (node : Vecu) : Real :=
  findSignedDistance shape pkg_lower_bound.

(** Every cell whose index starts at [2] or above needs a package. *)
Definition right_cells_inner (s : LevelSet.t) (cell_index : Vecu) : bool :=
  (2 <=? hd 0 cell_index)%Z.

(** A coarse core region that holds every position, and a coarse signed
    distance that is the first coordinate less [4]. *)
Definition everywhere_core (s : LevelSet.t) (position : Vecd) : bool := true.
Definition coarse_distance_probe (f : RealField) (s : LevelSet.t)
    (position : Vecd) : Real := (hd 0%Q position - 4)%Q.

(** Package operations that change nothing. *)
Definition no_package_op (pkg : nat) (s : LevelSet.t) : LevelSet.t := s.
Definition no_marking (small_shift_factor : Real) (pkg : nat) (s : LevelSet.t)
    : LevelSet.t := s.

(** A shape filling the half plane [x < 4]. *)
Definition half_plane_shape : Shape :=
  {| findSignedDistance := fun p => (hd 0%Q p - 4)%Q;
     findNormalDirection := fun _ => [1%Q; 0%Q];
     checkContain := fun p => Qltb (hd 0%Q p) 4 |}.

(** A mesh of [8 x 8] cells of spacing [1] around that shape, as the base
    class leaves it. *)
Definition half_plane_mesh : LevelSet.t :=
  LevelSet.MeshWithDataPackages half_plane_shape 1 (1 # 4) 4 [8%Z; 8%Z] 1 0.

(** * Properties *)

Lemma Qltb_lt (a b : Real) : Qltb a b = true <-> (a < b)%Q.
Proof. unfold Qltb, Qlt. apply Z.ltb_lt. Qed.

Lemma Qltb_ge (a b : Real) : Qltb a b = false <-> (b <= a)%Q.
Proof. unfold Qltb, Qle. apply Z.ltb_ge. Qed.

Lemma strictly_increasing_lookup (rs : list Real) (j k : nat) (r r' : Real) :
  strictly_increasing rs = true -> (j < k)%nat ->
  rs !! j = Some r -> rs !! k = Some r' -> (r < r')%Q.
Proof.
  revert j k r r'. induction rs as [|a rs IH]; intros j k r r' Hs Hjk Hj Hk.
  - discriminate.
  - destruct rs as [|b rs].
    + destruct k as [|k]; [lia|]. discriminate.
    + simpl in Hs. apply andb_prop in Hs as [Hab Hs]. apply Qltb_lt in Hab.
      destruct k as [|k]; [lia|]. simpl in Hk.
      destruct j as [|j]; simpl in Hj.
      * injection Hj as <-. destruct k as [|k]; simpl in Hk.
        -- injection Hk as <-. exact Hab.
        -- apply Qlt_trans with b; [exact Hab|].
           apply (IH 0%nat (S k) b r' Hs); [lia|reflexivity|exact Hk].
      * apply (IH j k r r' Hs); [lia|exact Hj|exact Hk].
Qed.

(** ** The level search *)

Section LevelSearchFacts.
Variable Eps : Real.

Abbreviation getMeshLevel_from := (MultilevelLevelSet.getMeshLevel_from Eps).
Abbreviation getMeshLevel := (MultilevelLevelSet.getMeshLevel Eps).
Abbreviation level_ratios := MultilevelLevelSet.level_ratios.

(** What the loop does from any counter value within the levels held:
    it never reads past the end, it returns the last index below the
    counter whose ratio passes the test, and it exits when none does. *)
Lemma getMeshLevel_from_spec (ml : MultilevelLevelSet.t) (level : nat) (h_ratio : Real) :
  (level <= length (MultilevelLevelSet.mesh_levels_ ml))%nat ->
  match getMeshLevel_from ml level h_ratio with
  | Returns i =>
      (i < level)%nat /\
      (exists r, level_ratios ml !! i = Some r /\ (- Eps < h_ratio - r)%Q) /\
      (forall j r, (i < j < level)%nat -> level_ratios ml !! j = Some r ->
                   (h_ratio - r <= - Eps)%Q)
  | Exits code =>
      code = 1%Z /\
      (forall j r, (j < level)%nat -> level_ratios ml !! j = Some r ->
                   (h_ratio - r <= - Eps)%Q)
  | OutOfBounds _ => False
  end.
Proof.
  induction level as [|level IH]; intros Hlen; simpl.
  - split; [reflexivity|]. intros j r Hj. lia.
  - unfold vec_at.
    destruct (MultilevelLevelSet.mesh_levels_ ml !! level) as [m|] eqn:Hm.
    2:{ apply lookup_ge_None in Hm. lia. }
    simpl.
    assert (Hr : level_ratios ml !! level = Some (LevelSet.global_h_ratio_ m)).
    { unfold level_ratios, MultilevelLevelSet.level_ratios.
      rewrite list_lookup_fmap, Hm. reflexivity. }
    destruct (Qltb (- Eps) (h_ratio - LevelSet.global_h_ratio_ m)) eqn:Htest.
    + apply Qltb_lt in Htest. split; [lia|]. split.
      * exists (LevelSet.global_h_ratio_ m). split; [exact Hr|exact Htest].
      * intros j r Hj. lia.
    + apply Qltb_ge in Htest.
      specialize (IH ltac:(lia)).
      destruct (getMeshLevel_from ml level h_ratio) as [i|code|k]; [| |exact IH].
      * destruct IH as (Hi & Hex & Hall). split; [lia|]. split; [exact Hex|].
        intros j r Hj Hjr. destruct (decide (j = level)) as [->|Hne].
        -- rewrite Hr in Hjr. injection Hjr as <-. exact Htest.
        -- apply (Hall j r); [lia|exact Hjr].
      * destruct IH as (Hc & Hall). split; [exact Hc|].
        intros j r Hj Hjr. destruct (decide (j = level)) as [->|Hne].
        -- rewrite Hr in Hjr. injection Hjr as <-. exact Htest.
        -- apply (Hall j r); [lia|exact Hjr].
Qed.

Lemma level_ratios_length (ml : MultilevelLevelSet.t) :
  length (level_ratios ml) = length (MultilevelLevelSet.mesh_levels_ ml).
Proof. unfold level_ratios, MultilevelLevelSet.level_ratios. apply length_fmap. Qed.

(** The search returns [i] exactly when level [i] passes the test and no
    finer level does. *)
Lemma getMeshLevel_returns_iff (ml : MultilevelLevelSet.t) (h_ratio : Real) (i : nat) :
  MultilevelLevelSet.well_formed ml ->
  getMeshLevel ml h_ratio = Returns i <->
  (exists r, level_ratios ml !! i = Some r /\ (- Eps < h_ratio - r)%Q) /\
  (forall j r, (i < j)%nat -> level_ratios ml !! j = Some r ->
               (h_ratio - r <= - Eps)%Q).
Proof.
  intros Hwf. unfold MultilevelLevelSet.well_formed in Hwf.
  pose proof (getMeshLevel_from_spec ml (MultilevelLevelSet.total_levels_ ml) h_ratio
                ltac:(lia)) as Hspec.
  unfold getMeshLevel, MultilevelLevelSet.getMeshLevel.
  assert (Hlt : forall j r, level_ratios ml !! j = Some r ->
                            (j < MultilevelLevelSet.total_levels_ ml)%nat).
  { intros j r Hj. apply lookup_lt_Some in Hj. rewrite level_ratios_length in Hj. lia. }
  split.
  - intros Hret. rewrite Hret in Hspec. destruct Hspec as (_ & Hex & Hall).
    split; [exact Hex|]. intros j r Hij Hj. apply (Hall j r); [|exact Hj].
    split; [exact Hij|]. exact (Hlt j r Hj).
  - intros ((r & Hr & Hpass) & Hall).
    destruct (getMeshLevel_from ml (MultilevelLevelSet.total_levels_ ml) h_ratio)
      as [i'|code|k]; [| |contradiction].
    + destruct Hspec as (Hi' & (r' & Hr' & Hpass') & Hall').
      destruct (lt_eq_lt_dec i' i) as [[Hlti| -> ]|Hgti]; [| reflexivity |].
      * pose proof (Hall' i r (conj Hlti (Hlt i r Hr)) Hr). lra.
      * pose proof (Hall i' r' Hgti Hr'). lra.
    + destruct Hspec as (_ & Hall').
      pose proof (Hall' i r (Hlt i r Hr) Hr). lra.
Qed.

(** The search ends in one of two ways: [exit(1)], or an index below
    [total_levels_]. *)
Lemma getMeshLevel_outcomes (ml : MultilevelLevelSet.t) (h_ratio : Real) :
  MultilevelLevelSet.well_formed ml ->
  getMeshLevel ml h_ratio = Exits 1 \/
  exists i, (i < MultilevelLevelSet.total_levels_ ml)%nat /\
            getMeshLevel ml h_ratio = Returns i.
Proof.
  intros Hwf. unfold MultilevelLevelSet.well_formed in Hwf.
  pose proof (getMeshLevel_from_spec ml (MultilevelLevelSet.total_levels_ ml) h_ratio
                ltac:(lia)) as Hspec.
  unfold getMeshLevel, MultilevelLevelSet.getMeshLevel.
  destruct (getMeshLevel_from ml (MultilevelLevelSet.total_levels_ ml) h_ratio)
    as [i|code|k]; [| |contradiction].
  - right. exists i. split; [apply Hspec|reflexivity].
  - left. destruct Hspec as [-> _]. reflexivity.
Qed.

(** C1 (as amended).  On a hierarchy of strictly increasing ratios
    [r_1 < ... < r_N], [getMeshLevel] returns the index of level [i]
    exactly when [r_i - Eps < target] and level [i] is the finest one or
    [target <= r_(i+1) - Eps]: the brackets [r_i <= target < r_(i+1)],
    each shifted down by the tolerance [Eps].  In particular every target
    above [r_N - Eps] gives the finest level. *)
Theorem getMeshLevel_tolerant_bracket (ml : MultilevelLevelSet.t) (h_ratio : Real) (i : nat) :
  MultilevelLevelSet.well_formed ml ->
  strictly_increasing (level_ratios ml) = true ->
  getMeshLevel ml h_ratio = Returns i <->
  (exists r, level_ratios ml !! i = Some r /\ (r - Eps < h_ratio)%Q) /\
  (forall r', level_ratios ml !! S i = Some r' -> (h_ratio <= r' - Eps)%Q).
Proof.
  intros Hwf Hinc. rewrite (getMeshLevel_returns_iff ml h_ratio i Hwf). split.
  - intros ((r & Hr & Hpass) & Hall). split.
    + exists r. split; [exact Hr|lra].
    + intros r' Hr'. pose proof (Hall (S i) r' ltac:(lia) Hr'). lra.
  - intros ((r & Hr & Hpass) & Hnext). split.
    + exists r. split; [exact Hr|lra].
    + intros j rj Hij Hj.
      assert (Hsome : is_Some (level_ratios ml !! S i)).
      { apply lookup_lt_is_Some. apply lookup_lt_Some in Hj. lia. }
      destruct Hsome as [r' Hr']. pose proof (Hnext r' Hr') as Hle.
      destruct (decide (j = S i)) as [->|Hne].
      * rewrite Hr' in Hj. injection Hj as <-. lra.
      * pose proof (strictly_increasing_lookup _ (S i) j r' rj Hinc ltac:(lia) Hr' Hj).
        lra.
Qed.

(** C2 (as amended).  [getMeshLevel] ends in [exit(1)] exactly when the
    requested ratio lies at least [Eps] below the ratio of every level
    (which includes a hierarchy without levels); as soon as one level
    passes the test, no error occurs and an index below [total_levels_]
    is returned. *)
Theorem getMeshLevel_exits_iff_below_all (ml : MultilevelLevelSet.t) (h_ratio : Real) :
  MultilevelLevelSet.well_formed ml ->
  (getMeshLevel ml h_ratio = Exits 1 <->
   Forall (fun r => (h_ratio - r <= - Eps)%Q) (level_ratios ml)) /\
  (Exists (fun r => (- Eps < h_ratio - r)%Q) (level_ratios ml) ->
   exists i, (i < MultilevelLevelSet.total_levels_ ml)%nat /\
             getMeshLevel ml h_ratio = Returns i).
Proof.
  intros Hwf.
  assert (Hexit : getMeshLevel ml h_ratio = Exits 1 <->
                  Forall (fun r => (h_ratio - r <= - Eps)%Q) (level_ratios ml)).
  { pose proof (getMeshLevel_from_spec ml (MultilevelLevelSet.total_levels_ ml) h_ratio)
      as Hspec.
    unfold MultilevelLevelSet.well_formed in Hwf. specialize (Hspec ltac:(lia)).
    unfold getMeshLevel, MultilevelLevelSet.getMeshLevel.
    rewrite Forall_lookup. split.
    - intros Hex. rewrite Hex in Hspec. destruct Hspec as (_ & Hall).
      intros j r Hj. apply (Hall j r); [|exact Hj].
      apply lookup_lt_Some in Hj. rewrite level_ratios_length in Hj. lia.
    - intros Hall.
      destruct (getMeshLevel_from ml (MultilevelLevelSet.total_levels_ ml) h_ratio)
        as [i|code|k]; [| |contradiction].
      + destruct Hspec as (_ & (r & Hr & Hpass) & _).
        pose proof (Hall i r Hr). lra.
      + destruct Hspec as [-> _]. reflexivity. }
  split; [exact Hexit|].
  intros Hsome. destruct (getMeshLevel_outcomes ml h_ratio Hwf) as [Hex|Hret].
  - apply Hexit in Hex. apply Exists_exists in Hsome as (r & Hin & Hpass).
    rewrite Forall_forall in Hex. pose proof (Hex r Hin). lra.
  - exact Hret.
Qed.

End LevelSearchFacts.

(** C1, witness: the hierarchy of ratios [1] and [2] searched for [3/2]. *)
Lemma getMeshLevel_tolerant_bracket_witness :
  MultilevelLevelSet.getMeshLevel Eps_double two_levels (3 # 2) = Returns 0%nat <->
  (exists r, MultilevelLevelSet.level_ratios two_levels !! 0%nat = Some r /\
             (r - Eps_double < 3 # 2)%Q) /\
  (forall r', MultilevelLevelSet.level_ratios two_levels !! 1%nat = Some r' ->
              (3 # 2 <= r' - Eps_double)%Q).
Proof.
  apply (getMeshLevel_tolerant_bracket Eps_double two_levels (3 # 2) 0%nat);
    reflexivity.
Defined.

(** C1, as stated, fails: on levels of ratios [1/2] and [1], the target
    [1 - 2^-53], the largest double below [1], is answered with the level
    of ratio [1], although [1 <= target] is false; the claim gives the
    level of ratio [1/2].  Every number here is a double and the
    subtraction [target - 1] is exact. *)
Lemma getMeshLevel_bracket_counterexample :
  MultilevelLevelSet.well_formed half_and_one /\
  strictly_increasing (MultilevelLevelSet.level_ratios half_and_one) = true /\
  MultilevelLevelSet.getMeshLevel Eps_double half_and_one (1 - Eps_double / 2)
    = Returns 1%nat /\
  MultilevelLevelSet.level_ratios half_and_one !! 0%nat = Some (1 # 2)%Q /\
  MultilevelLevelSet.level_ratios half_and_one !! 1%nat = Some 1%Q /\
  ((1 # 2) <= 1 - Eps_double / 2)%Q /\
  (1 - Eps_double / 2 < 1)%Q /\
  ~ (1 <= 1 - Eps_double / 2)%Q.
Proof.
  split; [reflexivity|]. split; [reflexivity|]. split; [vm_compute; reflexivity|].
  split; [reflexivity|]. split; [reflexivity|].
  split; [vm_compute; discriminate|]. split; [reflexivity|].
  intros H. vm_compute in H. apply H. reflexivity.
Qed.

(** The same test on doubles: at the largest double below [1], the level
    of ratio [1] passes the test of the loop. *)
Lemma getMeshLevel_test_below_one_binary64 :
  PrimFloat.sub Binary64.below_one Binary64.one
    = PrimFloat.opp Binary64.half_Eps_double /\
  Binary64.passes_level_test
    Binary64.Eps_double Binary64.below_one Binary64.one = true.
Proof. split; vm_compute; reflexivity. Qed.

(** C2, witness: the hierarchy of ratios [1] and [2]. *)
Lemma getMeshLevel_exits_iff_below_all_witness :
  (MultilevelLevelSet.getMeshLevel Eps_double two_levels (1 # 2) = Exits 1 <->
   Forall (fun r => ((1 # 2) - r <= - Eps_double)%Q)
          (MultilevelLevelSet.level_ratios two_levels)) /\
  (Exists (fun r => (- Eps_double < (1 # 2) - r)%Q)
          (MultilevelLevelSet.level_ratios two_levels) ->
   exists i, (i < MultilevelLevelSet.total_levels_ two_levels)%nat /\
             MultilevelLevelSet.getMeshLevel Eps_double two_levels (1 # 2) = Returns i).
Proof.
  apply (getMeshLevel_exits_iff_below_all Eps_double two_levels (1 # 2)).
  reflexivity.
Defined.

(** C2, as stated, fails in both directions: a request above every ratio
    is answered with the finest level, and a request below every ratio,
    which exceeds none, ends in [exit(1)]. *)
Lemma getMeshLevel_exit_counterexample :
  Forall (fun r => (r < 3)%Q) (MultilevelLevelSet.level_ratios two_levels) /\
  MultilevelLevelSet.getMeshLevel Eps_double two_levels 3 = Returns 1%nat /\
  Forall (fun r => ~ (r < 1 # 2)%Q) (MultilevelLevelSet.level_ratios two_levels) /\
  MultilevelLevelSet.getMeshLevel Eps_double two_levels (1 # 2) = Exits 1.
Proof.
  split; [repeat constructor|]. split; [vm_compute; reflexivity|].
  split; [|vm_compute; reflexivity].
  repeat constructor; intros H; vm_compute in H; discriminate.
Qed.

(** ** The blended probes *)

Section BlendedProbeFacts.
Variable Eps : Real.
Variable h_ratio_default : Real.
Variable probeMesh_Real : RealField -> LevelSet.t -> Vecd -> Real.
Variable probeMesh_Vecd : VecdField -> LevelSet.t -> Vecd -> Vecd.
Hypothesis Eps_pos : (0 < Eps)%Q.

Abbreviation probeKernelIntegral :=
  (MultilevelLevelSet.probeKernelIntegral Eps h_ratio_default probeMesh_Real).
Abbreviation probeKernelGradientIntegral :=
  (MultilevelLevelSet.probeKernelGradientIntegral Eps h_ratio_default probeMesh_Vecd).

(** Every request that reaches the finest level's ratio, up to the
    tolerance, selects the finest level as the coarse one. *)
Lemma getMeshLevel_finest (ml : MultilevelLevelSet.t) (h_ratio r : Real) (n : nat) :
  MultilevelLevelSet.well_formed ml ->
  MultilevelLevelSet.total_levels_ ml = S n ->
  MultilevelLevelSet.level_ratios ml !! n = Some r ->
  (r - Eps < h_ratio)%Q ->
  MultilevelLevelSet.getMeshLevel Eps ml h_ratio = Returns n.
Proof using Type.
  intros Hwf Htot Hr Hh. apply getMeshLevel_returns_iff; [exact Hwf|]. split.
  - exists r. split; [exact Hr|lra].
  - intros j rj Hj Hrj. apply lookup_lt_Some in Hrj.
    rewrite level_ratios_length in Hrj. unfold MultilevelLevelSet.well_formed in Hwf. lia.
Qed.

(** Both probes then read [mesh_levels_[total_levels_]], one past the
    last level. *)
Lemma probes_past_finest_level (ml : MultilevelLevelSet.t) (position : Vecd)
    (h_ratio r : Real) (n : nat) :
  MultilevelLevelSet.well_formed ml ->
  MultilevelLevelSet.total_levels_ ml = S n ->
  MultilevelLevelSet.level_ratios ml !! n = Some r ->
  (r - Eps < h_ratio)%Q ->
  probeKernelIntegral ml position h_ratio = OutOfBounds (S n) /\
  probeKernelGradientIntegral ml position h_ratio = OutOfBounds (S n).
Proof using Type.
  intros Hwf Htot Hr Hh.
  pose proof (getMeshLevel_finest ml h_ratio r n Hwf Htot Hr Hh) as Hlevel.
  assert (Hnone : MultilevelLevelSet.mesh_levels_ ml !! (n + 1)%nat = None).
  { apply lookup_ge_None. unfold MultilevelLevelSet.well_formed in Hwf. lia. }
  unfold MultilevelLevelSet.probeKernelIntegral,
    MultilevelLevelSet.probeKernelGradientIntegral.
  rewrite Hlevel. simpl. unfold vec_at. rewrite Hnone. simpl.
  replace (n + 1)%nat with (S n) by lia. split; reflexivity.
Qed.

(** At the own ratio of a level that is not the finest, and whose finer
    levels lie at least [Eps] above it, the blend weight is [1] and
    [probeKernelIntegral] returns that level's own probe value. *)
Lemma probeKernelIntegral_at_own_ratio (ml : MultilevelLevelSet.t)
    (position : Vecd) (k : nat) (coarse fine : LevelSet.t) :
  MultilevelLevelSet.well_formed ml ->
  strictly_increasing (MultilevelLevelSet.level_ratios ml) = true ->
  MultilevelLevelSet.mesh_levels_ ml !! k = Some coarse ->
  MultilevelLevelSet.mesh_levels_ ml !! S k = Some fine ->
  (LevelSet.global_h_ratio_ coarse + Eps <= LevelSet.global_h_ratio_ fine)%Q ->
  exists v,
    probeKernelIntegral ml position (LevelSet.global_h_ratio_ coarse) = Returns v /\
    (v == LevelSet.probeKernelIntegral probeMesh_Real coarse position h_ratio_default)%Q.
Proof using Eps_pos.
  intros Hwf Hinc Hk HSk Hsep.
  assert (Hrk : MultilevelLevelSet.level_ratios ml !! k
                = Some (LevelSet.global_h_ratio_ coarse)).
  { unfold MultilevelLevelSet.level_ratios. rewrite list_lookup_fmap, Hk. reflexivity. }
  assert (HrSk : MultilevelLevelSet.level_ratios ml !! S k
                 = Some (LevelSet.global_h_ratio_ fine)).
  { unfold MultilevelLevelSet.level_ratios. rewrite list_lookup_fmap, HSk. reflexivity. }
  assert (Hlevel : MultilevelLevelSet.getMeshLevel Eps ml (LevelSet.global_h_ratio_ coarse)
                   = Returns k).
  { apply (getMeshLevel_returns_iff Eps ml _ k Hwf). split.
    - exists (LevelSet.global_h_ratio_ coarse). split; [exact Hrk|lra].
    - intros j rj Hj Hrj. destruct (decide (j = S k)) as [->|Hne].
      + rewrite HrSk in Hrj. injection Hrj as <-. lra.
      + pose proof (strictly_increasing_lookup _ (S k) j _ rj Hinc ltac:(lia) HrSk Hrj).
        lra. }
  unfold MultilevelLevelSet.probeKernelIntegral. rewrite Hlevel. simpl.
  unfold vec_at. replace (k + 1)%nat with (S k) by lia. rewrite HSk, Hk. simpl.
  eexists. split; [reflexivity|].
  unfold MultilevelLevelSet.blend_weight. field. lra.
Qed.

End BlendedProbeFacts.

(** C8, on the code: on the hierarchy of ratios [1] and [2], a request for
    ratio [2] makes [getMeshLevel] return the index [1] of the finest
    level without error; the index [coarse_level + 1 = 2] both probes
    then read is not below [total_levels_ = 2], and both calls end in
    a read past the end of [mesh_levels_]. *)
Theorem next_finer_level_out_of_bounds :
  MultilevelLevelSet.getMeshLevel Eps_double two_levels 2 = Returns 1%nat /\
  ~ (1 + 1 < MultilevelLevelSet.total_levels_ two_levels)%nat /\
  MultilevelLevelSet.probeKernelIntegral Eps_double 1 ratio_probe_Real
    two_levels [0%Q; 0%Q] 2 = OutOfBounds 2 /\
  MultilevelLevelSet.probeKernelGradientIntegral Eps_double 1 ratio_probe_Vecd
    two_levels [0%Q; 0%Q] 2 = OutOfBounds 2.
Proof.
  split; [vm_compute; reflexivity|]. split; [simpl; lia|].
  split; vm_compute; reflexivity.
Qed.

(** C5, on the code: on the hierarchy of ratios [1] and [2], the probes
    called with the own ratio [2] of the finest level return no value at
    all, whatever the position and the node data: they read past the end
    of [mesh_levels_].  With the own ratio [1] of the coarse level they
    return that level's value. *)
Theorem probe_at_finest_level_ratio :
  MultilevelLevelSet.level_ratios two_levels !! 1%nat = Some 2%Q /\
  (forall probeMesh_Real probeMesh_Vecd h_ratio_default position,
     MultilevelLevelSet.probeKernelIntegral Eps_double h_ratio_default
       probeMesh_Real two_levels position 2 = OutOfBounds 2 /\
     MultilevelLevelSet.probeKernelGradientIntegral Eps_double h_ratio_default
       probeMesh_Vecd two_levels position 2 = OutOfBounds 2) /\
  (exists v,
     MultilevelLevelSet.probeKernelIntegral Eps_double 1 ratio_probe_Real
       two_levels [0%Q; 0%Q] 1 = Returns v /\
     (v == LevelSet.probeKernelIntegral ratio_probe_Real (mesh_of_ratio 1)
             [0%Q; 0%Q] 1)%Q).
Proof.
  split; [reflexivity|]. split.
  - intros probeR probeV d position.
    apply (probes_past_finest_level Eps_double d probeR probeV two_levels
             position 2 2 1%nat); reflexivity.
  - eexists. split; [vm_compute; reflexivity|]. reflexivity.
Qed.

(** ** [computeHeaviside] *)

Section HeavisideFacts.
Local Open Scope R_scope.



End HeavisideFacts.



(** ** [probeIsWithinMeshBound] *)

(** The loop only ever clears the flag. *)
Lemma within_bound_loop_false (cell_pos number_of_cells : Vecu) :
  LevelSet.within_bound_loop cell_pos number_of_cells false = false.
Proof.
  revert number_of_cells. induction cell_pos as [|c cs IH]; intros [|n ns]; simpl;
    try reflexivity.
  destruct (c <? 2)%Z, (c >? size_t_sub n 2)%Z; apply IH.
Qed.

(** What the loop computes on a mesh with at least two cells in every
    direction: the flag is cleared exactly when some component of the
    cell index is [0], [1] or the last index [n - 1].  The index
    [n - 2] does not clear it. *)
Lemma within_bound_loop_false_iff (cell_pos number_of_cells : Vecu) :
  Forall2 (fun c n => 0 <= c < n /\ 2 <= n < size_t_modulus)%Z
          cell_pos number_of_cells ->
  LevelSet.within_bound_loop cell_pos number_of_cells true = false <->
  Exists (fun cn => fst cn = 0 \/ fst cn = 1 \/ fst cn = snd cn - 1)%Z
         (zip cell_pos number_of_cells).
Proof.
  induction 1 as [|c n cs ns [Hc Hn] Hrest IH]; simpl.
  - split; [discriminate|]. intros H. inversion H.
  - assert (Hsub : size_t_sub n 2 = (n - 2)%Z).
    { unfold size_t_sub, size_t_wrap. apply Z.mod_small. lia. }
    rewrite Hsub, Exists_cons. simpl.
    destruct (Z.ltb_spec c 2) as [Hlt|Hge].
    + split; [intros _; left; lia|].
      intros _. destruct (c >? n - 2)%Z; apply within_bound_loop_false.
    + destruct (Z.gtb_spec c (n - 2)) as [Hgt|Hle].
      * split; [intros _; left; lia|]. intros _. apply within_bound_loop_false.
      * rewrite IH. split; [intros H; right; exact H|].
        intros [H|H]; [lia|exact H].
Qed.

(** C3, on the code: on a mesh of [8 x 8] cells, a position whose cell has
    the index [6 = 8 - 2] in the first direction, and an index away from
    both edges in the second, is reported as within the mesh bound. *)
Theorem probeIsWithinMeshBound_second_to_last_cell :
  LevelSet.number_of_cells_ (mesh_of_ratio 1) = [8; 8]%Z /\
  unit_cell_index [13 # 2; 7 # 2]%Q = [8 - 2; 3]%Z /\
  LevelSet.probeIsWithinMeshBound unit_cell_index (mesh_of_ratio 1)
    [13 # 2; 7 # 2]%Q = true /\
  LevelSet.probeIsWithinMeshBound unit_cell_index (mesh_of_ratio 1)
    [3 # 2; 7 # 2]%Q = false /\
  LevelSet.probeIsWithinMeshBound unit_cell_index (mesh_of_ratio 1)
    [15 # 2; 7 # 2]%Q = false.
Proof. repeat split; vm_compute; reflexivity. Qed.

(** ** Probes of a single level *)

(** C9.  On a single level, [probeKernelIntegral] and
    [probeKernelGradientIntegral] do not read their [h_ratio] argument:
    any two ratios give the same value at the same position. *)
Theorem single_level_probes_ignore_h_ratio
    (probeMesh_Real : RealField -> LevelSet.t -> Vecd -> Real)
    (probeMesh_Vecd : VecdField -> LevelSet.t -> Vecd -> Vecd)
    (s : LevelSet.t) (position : Vecd) (h1 h2 : Real) :
  LevelSet.probeKernelIntegral probeMesh_Real s position h1
  = LevelSet.probeKernelIntegral probeMesh_Real s position h2 /\
  LevelSet.probeKernelGradientIntegral probeMesh_Vecd s position h1
  = LevelSet.probeKernelGradientIntegral probeMesh_Vecd s position h2.
Proof. split; reflexivity. Qed.

(** ** The interface-cleaning pipeline *)

Lemma for_loop_from_iter {W : Type} (f : W -> W) (steps i : nat) (w : W) :
  LevelSet.for_loop_from steps i (i + steps) (fun _ => f) w = Nat.iter steps f w.
Proof.
  revert i w. induction steps as [|steps IH]; intros i w; simpl; [reflexivity|].
  destruct (Nat.ltb_spec i (i + S steps)) as [_|Hge]; [|lia].
  replace (i + S steps)%nat with (S i + steps)%nat by lia.
  rewrite IH. apply Nat.iter_swap.
Qed.

(** A counted loop whose body ignores the counter runs the body
    [bound] times. *)
Lemma for_loop_iter {W : Type} (f : W -> W) (bound : nat) (w : W) :
  LevelSet.for_loop 0 bound (fun _ => f) w = Nat.iter bound f w.
Proof.
  unfold LevelSet.for_loop. rewrite Nat.sub_0_r.
  apply (for_loop_from_iter f bound 0).
Qed.

Section PipelineFacts.
Variable computeNormalDirection : nat -> LevelSet.t -> LevelSet.t.
Variable computeNoneNormalizedNormalDirection : nat -> LevelSet.t -> LevelSet.t.
Variable computeKernelIntegrals : nat -> LevelSet.t -> LevelSet.t.
Variable stepReinitialization : nat -> LevelSet.t -> LevelSet.t.
Variable markNearInterface_pkg : Real -> nat -> LevelSet.t -> LevelSet.t.
Variable redistanceInterface_pkg : nat -> LevelSet.t -> LevelSet.t.

Abbreviation sweep :=
  (LevelSet.sweep computeNormalDirection computeNoneNormalizedNormalDirection
     computeKernelIntegrals stepReinitialization markNearInterface_pkg
     redistanceInterface_pkg).
Abbreviation PackageIterator_parallel :=
  (LevelSet.PackageIterator_parallel computeNormalDirection
     computeNoneNormalizedNormalDirection computeKernelIntegrals
     stepReinitialization markNearInterface_pkg redistanceInterface_pkg).
Abbreviation cleanInterface :=
  (LevelSet.cleanInterface computeNormalDirection
     computeNoneNormalizedNormalDirection computeKernelIntegrals
     stepReinitialization markNearInterface_pkg redistanceInterface_pkg).

(** Repeating one pass [n] times sweeps the level set [n] times and adds
    [n] entries to the log. *)
Lemma iter_PackageIterator_parallel (pkgs : PackageSet) (f : PackageFunctor)
    (n : nat) (w : LevelSet.World) :
  Nat.iter n (PackageIterator_parallel pkgs f) w
  = (Nat.iter n (sweep pkgs f) (fst w), snd w ++ repeat (f, pkgs) n).
Proof.
  induction n as [|n IH]; simpl.
  - rewrite app_nil_r. destruct w; reflexivity.
  - rewrite IH. unfold LevelSet.PackageIterator_parallel. simpl.
    rewrite <- app_assoc. f_equal. f_equal.
    change ((f, pkgs) :: repeat (f, pkgs) n) with (repeat (f, pkgs) (S n)).
    symmetry. apply repeat_cons.
Qed.

(** C4.  [cleanInterface] runs, in this order and nothing else:
    [markNearInterface] over the core packages, [redistanceInterface]
    over the core packages, fifty reinitialization sweeps over the inner
    packages with no test between them, [updateNormalDirection] over the
    inner packages and [updateKernelIntegrals] over the inner packages.
    The log of passes grows by exactly these entries and the level set is
    the result of these sweeps, whatever the package operations are. *)
Theorem cleanInterface_pipeline (isSmoothed : bool) (s : LevelSet.t)
    (log : list (PackageFunctor * PackageSet)) :
  snd (cleanInterface isSmoothed (s, log))
  = log ++ [(markNearInterfaceForAPackage, core_data_pkgs);
            (redistanceInterfaceForAPackage, core_data_pkgs)]
        ++ repeat (stepReinitializationForAPackage, inner_data_pkgs) 50
        ++ [(updateNormalDirectionForAPackage, inner_data_pkgs);
            (updateKernelIntegralsForAPackage, inner_data_pkgs)] /\
  fst (cleanInterface isSmoothed (s, log))
  = sweep inner_data_pkgs updateKernelIntegralsForAPackage
      (sweep inner_data_pkgs updateNormalDirectionForAPackage
         (Nat.iter 50 (sweep inner_data_pkgs stepReinitializationForAPackage)
            (sweep core_data_pkgs redistanceInterfaceForAPackage
               (sweep core_data_pkgs markNearInterfaceForAPackage s)))).
Proof.
  unfold LevelSet.cleanInterface, LevelSet.updateKernelIntegrals,
    LevelSet.updateNormalDirection, LevelSet.reinitializeLevelSet,
    LevelSet.redistanceInterface, LevelSet.markNearInterface.
  rewrite for_loop_iter, iter_PackageIterator_parallel.
  unfold LevelSet.PackageIterator_parallel. cbn [fst snd].
  split; [|reflexivity].
  rewrite <- !app_assoc. reflexivity.
Qed.

End PipelineFacts.

(** ** Classification *)

Lemma mesh_cells_complete (cell_index upper : Vecu) :
  Forall2 (fun c n => (0 <= c < n)%Z) cell_index upper ->
  In cell_index (LevelSet.mesh_cells upper).
Proof.
  induction 1 as [|c n cs ns Hc _ IH]; simpl.
  - left. reflexivity.
  - apply in_flat_map. exists c. split.
    + apply in_map_iff. exists (Z.to_nat c). split; [lia|]. apply in_seq. lia.
    + apply in_map. exact IH.
Qed.

Lemma has_core_package_extends (c cell_index : Vecu) (s s' : LevelSet.t) :
  LevelSet.extends_away_from c s s' -> cell_index <> c ->
  LevelSet.has_core_package s cell_index -> LevelSet.has_core_package s' cell_index.
Proof.
  intros (Haddr & Hpool & Hsing & Hcore) Hne
    (a & pkg & Ha & Hp & Hns & Hidx & Hflag & Hin).
  exists a, pkg. rewrite (Haddr _ Hne), Hsing. repeat split; auto.
Qed.

Lemma has_singular_package_extends (c cell_index : Vecu) (s s' : LevelSet.t)
    (i : nat) (far_field : Real) :
  LevelSet.extends_away_from c s s' -> cell_index <> c ->
  LevelSet.has_singular_package s cell_index i far_field ->
  LevelSet.has_singular_package s' cell_index i far_field.
Proof.
  intros (Haddr & Hpool & Hsing & Hcore) Hne (a & pkg & Hs & Ha & Hp & Hphi).
  exists a, pkg. rewrite (Haddr _ Hne), Hsing. repeat split; auto.
Qed.

(** Taking a package from the pool and flagging it leaves the packages
    already there alone. *)
Lemma pool_after_create (f : LevelSetDataPackage -> LevelSetDataPackage)
    (pool : list LevelSetDataPackage) (new_pkg pkg : LevelSetDataPackage) (k : nat) :
  pool !! k = Some pkg ->
  alter f (length pool) (pool ++ [new_pkg]) !! k = Some pkg.
Proof.
  intros Hk. pose proof (lookup_lt_Some _ _ _ Hk) as Hlt.
  rewrite list_lookup_alter_ne by lia. rewrite lookup_app_l by lia. exact Hk.
Qed.

Lemma pool_new_package (f : LevelSetDataPackage -> LevelSetDataPackage)
    (pool : list LevelSetDataPackage) (new_pkg : LevelSetDataPackage) :
  alter f (length pool) (pool ++ [new_pkg]) !! length pool = Some (f new_pkg).
Proof.
  rewrite list_lookup_alter_eq, list_lookup_middle by reflexivity. reflexivity.
Qed.

Section ClassificationFacts.
Variable CellPositionFromIndex : Vecu -> Vecd.
Variable GridPositionFromCellPosition : Vecd -> Vecd.
Variable initializeBasicData : Shape -> Vecd -> Real -> Vecu -> Real.
Variable mesh : LevelSet.t.

Abbreviation initializeDataInACell :=
  (LevelSet.initializeDataInACell CellPositionFromIndex
     GridPositionFromCellPosition initializeBasicData).
Abbreviation classified := (LevelSet.classified CellPositionFromIndex mesh).
Abbreviation invariant := (LevelSet.classification_invariant mesh).
Abbreviation cell_measure := (LevelSet.cell_measure CellPositionFromIndex mesh).

(** One call of [initializeDataInACell] returns, keeps the invariant,
    classifies its cell and leaves every other cell as it was. *)
Lemma initializeDataInACell_step (c : Vecu) (s : LevelSet.t) :
  invariant s ->
  exists s', initializeDataInACell c s = Returns s' /\
             invariant s' /\ classified s' c /\
             LevelSet.extends_away_from c s s'.
Proof.
  intros (Hshape & Hgs & Hn & Hsing & inside & outside & H0 & H1 & Hin & Hout).
  pose proof (lookup_lt_Some _ _ _ H1) as Hlen.
  unfold LevelSet.initializeDataInACell, LevelSet.classified, LevelSet.cell_measure.
  rewrite Hshape, Hgs.
  destruct (Qltb _ (LevelSet.grid_spacing_ mesh)) eqn:Htest.
  - cbn. eexists. split; [reflexivity|]. split; [|split].
    + unfold LevelSet.classification_invariant. cbn.
      repeat (split; [assumption|]).
      exists inside, outside. repeat split; try assumption;
        apply pool_after_create; assumption.
    + eexists _, _. cbn. split; [apply lookup_insert_eq|].
      split; [apply pool_new_package|]. rewrite Hsing.
      split; [rewrite !not_elem_of_cons; repeat split; try lia; apply not_elem_of_nil|].
      split; [reflexivity|]. split; [reflexivity|].
      apply elem_of_app. right. apply list_elem_of_singleton. reflexivity.
    + unfold LevelSet.extends_away_from. cbn. split; [|split; [|split]].
      * intros c' Hne. apply lookup_insert_ne. congruence.
      * intros k pkg Hk. apply pool_after_create. exact Hk.
      * reflexivity.
      * intros k Hk. apply elem_of_app. left. exact Hk.
  - rewrite Hsing.
    destruct (checkContain (LevelSet.shape_ mesh) (CellPositionFromIndex c)); cbn.
    + eexists. split; [reflexivity|]. split; [|split].
      * unfold LevelSet.classification_invariant. cbn.
        repeat (split; [assumption|]). exists inside, outside. repeat split; assumption.
      * exists 0%nat, inside. cbn. rewrite Hsing.
        split; [reflexivity|]. split; [apply lookup_insert_eq|]. split; assumption.
      * unfold LevelSet.extends_away_from. cbn. split; [|split; [|split]]; auto.
        intros c' Hne. apply lookup_insert_ne. congruence.
    + eexists. split; [reflexivity|]. split; [|split].
      * unfold LevelSet.classification_invariant. cbn.
        repeat (split; [assumption|]). exists inside, outside. repeat split; assumption.
      * exists 1%nat, outside. cbn. rewrite Hsing.
        split; [reflexivity|]. split; [apply lookup_insert_eq|]. split; assumption.
      * unfold LevelSet.extends_away_from. cbn. split; [|split; [|split]]; auto.
        intros c' Hne. apply lookup_insert_ne. congruence.
Qed.

Lemma classified_extends (c cell_index : Vecu) (s s' : LevelSet.t) :
  LevelSet.extends_away_from c s s' -> cell_index <> c ->
  classified s cell_index -> classified s' cell_index.
Proof.
  intros Hext Hne. unfold LevelSet.classified.
  destruct (Qltb _ _).
  - apply (has_core_package_extends c); assumption.
  - destruct (checkContain _ _);
      apply (has_singular_package_extends c); assumption.
Qed.

(** The pass over any list of cells returns, and every cell it has
    visited, in this pass or before it, is classified at the end. *)
Lemma MeshIterator_classifies (cells : list Vecu) (s : LevelSet.t)
    (visited : list Vecu) :
  invariant s ->
  (forall c, In c visited -> classified s c) ->
  exists s', LevelSet.MeshIterator cells initializeDataInACell s = Returns s' /\
             invariant s' /\
             (forall c, In c visited \/ In c cells -> classified s' c).
Proof.
  revert s visited. induction cells as [|c cells IH]; intros s visited Hinv Hvis.
  - exists s. split; [reflexivity|]. split; [exact Hinv|].
    intros c [Hc|[]]. apply Hvis, Hc.
  - destruct (initializeDataInACell_step c s Hinv) as (s1 & Hrun & Hinv1 & Hc & Hext).
    destruct (IH s1 (c :: visited) Hinv1) as (s' & Hrest & Hinv' & Hall).
    { intros c' [<-|Hc']; [exact Hc|].
      destruct (decide (c' = c)) as [->|Hne]; [exact Hc|].
      apply (classified_extends c c' s s1 Hext Hne). apply Hvis, Hc'. }
    exists s'. simpl. rewrite Hrun. simpl. split; [exact Hrest|]. split; [exact Hinv'|].
    intros c' [Hc'|[<-|Hc']]; apply Hall.
    + left. right. exact Hc'.
    + left. left. reflexivity.
    + right. exact Hc'.
Qed.

(** The constructor leaves the two singular packages at the head of the
    pool: the inside one first, the outside one second. *)
Lemma LevelSet_buffered_invariant :
  LevelSet.data_pkg_pool_ mesh = [] ->
  LevelSet.singular_data_pkgs_addrs_ mesh = [] ->
  invariant (LevelSet.LevelSet_buffered mesh).
Proof.
  intros Hpool Hsing.
  unfold LevelSet.classification_invariant, LevelSet.LevelSet_buffered,
    LevelSet.initializeASingularDataPackage. cbn.
  rewrite Hpool, Hsing. cbn. repeat (split; [reflexivity|]).
  eexists _, _. repeat split; reflexivity.
Qed.

(** The whole classification pass returns and classifies every cell of
    the mesh. *)
Lemma classify_classifies :
  LevelSet.data_pkg_pool_ mesh = [] ->
  LevelSet.singular_data_pkgs_addrs_ mesh = [] ->
  exists s, LevelSet.classify CellPositionFromIndex GridPositionFromCellPosition
              initializeBasicData mesh = Returns s /\
            invariant s /\
            (forall c, Forall2 (fun i n => (0 <= i < n)%Z) c (LevelSet.number_of_cells_ mesh)
                       -> classified s c).
Proof.
  intros Hpool Hsing.
  pose proof (LevelSet_buffered_invariant Hpool Hsing) as Hinv.
  destruct (MeshIterator_classifies
              (LevelSet.mesh_cells (LevelSet.number_of_cells_ (LevelSet.LevelSet_buffered mesh)))
              (LevelSet.LevelSet_buffered mesh) [] Hinv) as (s & Hrun & Hinv' & Hall).
  { intros c []. }
  exists s. split; [exact Hrun|]. split; [exact Hinv'|].
  intros c Hc. apply Hall. right. apply mesh_cells_complete. exact Hc.
Qed.

(** C6.  After the classification pass, a cell of the mesh has a package
    of its own from the pool, flagged core and listed with the core
    packages, if and only if the proximity test holds at the cell: the
    largest absolute component of the normal direction times the signed
    distance, both taken at the cell position, is strictly below one grid
    spacing. *)
Theorem classification_core_iff_proximity (cell_index : Vecu) :
  LevelSet.data_pkg_pool_ mesh = [] ->
  LevelSet.singular_data_pkgs_addrs_ mesh = [] ->
  Forall2 (fun i n => (0 <= i < n)%Z) cell_index (LevelSet.number_of_cells_ mesh) ->
  exists s, LevelSet.classify CellPositionFromIndex GridPositionFromCellPosition
              initializeBasicData mesh = Returns s /\
            (LevelSet.has_core_package s cell_index <->
             (cell_measure cell_index < LevelSet.grid_spacing_ mesh)%Q).
Proof.
  intros Hpool Hsing Hcell.
  destruct (classify_classifies Hpool Hsing) as (s & Hrun & Hinv & Hall).
  exists s. split; [exact Hrun|].
  specialize (Hall cell_index Hcell). unfold LevelSet.classified in Hall.
  destruct (Qltb (cell_measure cell_index) (LevelSet.grid_spacing_ mesh)) eqn:Htest.
  - apply Qltb_lt in Htest. split; [intros _; exact Htest|intros _; exact Hall].
  - apply Qltb_ge in Htest. split; [|intros Hlt; lra].
    intros (a & pkg & Ha & _ & Hns & _). exfalso. apply Hns.
    assert (Hshared : exists i far,
               LevelSet.has_singular_package s cell_index i far).
    { destruct (checkContain _ _); eauto. }
    destruct Hshared as (i & far & a' & pkg' & Hs & Ha' & _).
    rewrite Ha in Ha'. injection Ha' as <-.
    apply list_elem_of_lookup. exists i. exact Hs.
Qed.

(** C7.  After the classification pass, a cell of the mesh that fails the
    proximity test shares one of the two singular packages, which are
    two different packages: the first, whose nodes all hold
    [-(grid_spacing_ * buffer_width_)], if the shape contains the cell
    position, and otherwise the second, whose nodes all hold
    [grid_spacing_ * buffer_width_].  On a mesh of positive spacing and
    buffer width the first value is negative and the second positive. *)
Theorem classification_far_field_binding (cell_index : Vecu) :
  LevelSet.data_pkg_pool_ mesh = [] ->
  LevelSet.singular_data_pkgs_addrs_ mesh = [] ->
  Forall2 (fun i n => (0 <= i < n)%Z) cell_index (LevelSet.number_of_cells_ mesh) ->
  Qltb (cell_measure cell_index) (LevelSet.grid_spacing_ mesh) = false ->
  let far_field_distance :=
    (LevelSet.grid_spacing_ mesh * inject_Z (LevelSet.buffer_width_ mesh))%Q in
  exists s, LevelSet.classify CellPositionFromIndex GridPositionFromCellPosition
              initializeBasicData mesh = Returns s /\
    (exists inside outside,
        LevelSet.singular_data_pkgs_addrs_ s = [inside; outside] /\
        inside <> outside) /\
    ~ LevelSet.has_core_package s cell_index /\
    (if checkContain (LevelSet.shape_ mesh) (CellPositionFromIndex cell_index)
     then LevelSet.has_singular_package s cell_index 0 (- far_field_distance)%Q
     else LevelSet.has_singular_package s cell_index 1 far_field_distance) /\
    ((0 < LevelSet.grid_spacing_ mesh)%Q -> (0 < LevelSet.buffer_width_ mesh)%Z ->
     (- far_field_distance < 0)%Q /\ (0 < far_field_distance)%Q).
Proof.
  intros Hpool Hsing Hcell Htest far_field_distance.
  destruct (classify_classifies Hpool Hsing) as (s & Hrun & Hinv & Hall).
  exists s. split; [exact Hrun|].
  specialize (Hall cell_index Hcell). unfold LevelSet.classified in Hall.
  rewrite Htest in Hall.
  destruct Hinv as (_ & _ & _ & Hs & _).
  split; [exists 0%nat, 1%nat; split; [exact Hs|lia]|].
  split; [|split; [exact Hall|]].
  - intros (a & pkg & Ha & _ & Hns & _). apply Hns.
    assert (Hshared : exists i far,
               LevelSet.has_singular_package s cell_index i far).
    { destruct (checkContain _ _); eauto. }
    destruct Hshared as (i & far & a' & pkg' & Hs' & Ha' & _).
    rewrite Ha in Ha'. injection Ha' as <-.
    apply list_elem_of_lookup. exists i. exact Hs'.
  - intros Hgs Hbw.
    assert (Hb : (0 < inject_Z (LevelSet.buffer_width_ mesh))%Q).
    { change 0%Q with (inject_Z 0). rewrite <- Zlt_Qlt. exact Hbw. }
    assert (Hfar : (0 < far_field_distance)%Q).
    { unfold far_field_distance. apply Qmult_lt_0_compat; assumption. }
    split; lra.
Qed.

End ClassificationFacts.

(** C6, witness: the cell [(3, 0)] of the mesh around the half plane
    [x < 4], whose centre is half a spacing away from the boundary. *)
Lemma classification_core_iff_proximity_witness :
  exists s, LevelSet.classify unit_cell_position unit_grid_position
              lower_bound_data half_plane_mesh = Returns s /\
            (LevelSet.has_core_package s [3; 0]%Z <->
             (LevelSet.cell_measure unit_cell_position half_plane_mesh [3; 0]%Z
              < LevelSet.grid_spacing_ half_plane_mesh)%Q).
Proof.
  apply (classification_core_iff_proximity unit_cell_position unit_grid_position
           lower_bound_data half_plane_mesh [3; 0]%Z);
    [reflexivity | reflexivity | repeat constructor; lia].
Defined.

(** C7, witness: the cell [(0, 0)] of the same mesh, deep inside the
    shape. *)
Lemma classification_far_field_binding_witness :
  exists s, LevelSet.classify unit_cell_position unit_grid_position
              lower_bound_data half_plane_mesh = Returns s /\
    (exists inside outside,
        LevelSet.singular_data_pkgs_addrs_ s = [inside; outside] /\
        inside <> outside) /\
    ~ LevelSet.has_core_package s [0; 0]%Z /\
    (if checkContain (LevelSet.shape_ half_plane_mesh) (unit_cell_position [0; 0]%Z)
     then LevelSet.has_singular_package s [0; 0]%Z 0
            (- (LevelSet.grid_spacing_ half_plane_mesh
                * inject_Z (LevelSet.buffer_width_ half_plane_mesh)))%Q
     else LevelSet.has_singular_package s [0; 0]%Z 1
            (LevelSet.grid_spacing_ half_plane_mesh
             * inject_Z (LevelSet.buffer_width_ half_plane_mesh))%Q) /\
    ((0 < LevelSet.grid_spacing_ half_plane_mesh)%Q ->
     (0 < LevelSet.buffer_width_ half_plane_mesh)%Z ->
     (- (LevelSet.grid_spacing_ half_plane_mesh
         * inject_Z (LevelSet.buffer_width_ half_plane_mesh)) < 0)%Q /\
     (0 < LevelSet.grid_spacing_ half_plane_mesh
          * inject_Z (LevelSet.buffer_width_ half_plane_mesh))%Q).
Proof.
  apply (classification_far_field_binding unit_cell_position unit_grid_position
           lower_bound_data half_plane_mesh [0; 0]%Z);
    [reflexivity | reflexivity | repeat constructor; lia | reflexivity].
Defined.

(** * Further properties of the code *)

(** ** More on the level search *)

Section LevelSearchMore.
Variable Eps : Real.

(** The search exits exactly when no level passes the test. *)
Lemma getMeshLevel_exits_iff (ml : MultilevelLevelSet.t) (h_ratio : Real) :
  MultilevelLevelSet.well_formed ml ->
  MultilevelLevelSet.getMeshLevel Eps ml h_ratio = Exits 1 <->
  Forall (fun r => (h_ratio - r <= - Eps)%Q) (MultilevelLevelSet.level_ratios ml).
Proof.
  intros Hwf.
  pose proof (getMeshLevel_from_spec Eps ml (MultilevelLevelSet.total_levels_ ml) h_ratio)
    as Hspec.
  unfold MultilevelLevelSet.well_formed in Hwf. specialize (Hspec ltac:(lia)).
  unfold MultilevelLevelSet.getMeshLevel. rewrite Forall_lookup. split.
  - intros Hex. rewrite Hex in Hspec. destruct Hspec as (_ & Hall).
    intros j r Hj. apply (Hall j r); [|exact Hj].
    apply lookup_lt_Some in Hj. rewrite level_ratios_length in Hj. lia.
  - intros Hall.
    destruct (MultilevelLevelSet.getMeshLevel_from Eps ml _ h_ratio)
      as [i|code|k]; [| |contradiction].
    + destruct Hspec as (_ & (r & Hr & Hpass) & _).
      pose proof (Hall i r Hr). lra.
    + destruct Hspec as [-> _]. reflexivity.
Qed.

(** X1.  The level search is monotone in the requested ratio, whatever
    the order of the levels' ratios: once a request is answered with a
    level, every larger request is answered too, with the same or a finer
    level. *)
Theorem getMeshLevel_monotone (ml : MultilevelLevelSet.t) (h1 h2 : Real) (i1 : nat) :
  MultilevelLevelSet.well_formed ml ->
  (h1 <= h2)%Q ->
  MultilevelLevelSet.getMeshLevel Eps ml h1 = Returns i1 ->
  exists i2, MultilevelLevelSet.getMeshLevel Eps ml h2 = Returns i2 /\ (i1 <= i2)%nat.
Proof.
  intros Hwf Hle Hret.
  apply (getMeshLevel_returns_iff Eps ml h1 i1 Hwf) in Hret
    as ((r1 & Hr1 & Hpass1) & _).
  destruct (getMeshLevel_outcomes Eps ml h2 Hwf) as [Hex|(i2 & _ & Hret2)].
  - apply (getMeshLevel_exits_iff ml h2 Hwf) in Hex.
    rewrite Forall_lookup in Hex. pose proof (Hex i1 r1 Hr1). lra.
  - exists i2. split; [exact Hret2|].
    apply (getMeshLevel_returns_iff Eps ml h2 i2 Hwf) in Hret2 as (_ & Hall2).
    destruct (le_lt_dec i1 i2) as [Hok|Hlt]; [exact Hok|].
    pose proof (Hall2 i1 r1 Hlt Hr1). lra.
Qed.

End LevelSearchMore.

(** X1, witness: the hierarchy of ratios [1] and [2], requests [1] and
    [2]. *)
Lemma getMeshLevel_monotone_witness :
  exists i2, MultilevelLevelSet.getMeshLevel Eps_double two_levels 2 = Returns i2 /\
             (0 <= i2)%nat.
Proof.
  apply (getMeshLevel_monotone Eps_double two_levels 1 2 0%nat);
    [reflexivity | discriminate | vm_compute; reflexivity].
Defined.

(** ** More on the blended probes *)

Section BlendedProbeMore.
Variable Eps : Real.
Variable h_ratio_default : Real.
Variable probeMesh_Real : RealField -> LevelSet.t -> Vecd -> Real.
Variable probeMesh_Vecd : VecdField -> LevelSet.t -> Vecd -> Vecd.

Abbreviation probeKernelIntegral :=
  (MultilevelLevelSet.probeKernelIntegral Eps h_ratio_default probeMesh_Real).
Abbreviation probeKernelGradientIntegral :=
  (MultilevelLevelSet.probeKernelGradientIntegral Eps h_ratio_default probeMesh_Vecd).

(** X2.  The blended probes end in [exit(1)] exactly when the level
    search does: when the requested ratio lies at least [Eps] below the
    ratio of every level.  No other path of the probes exits. *)
Theorem blended_probes_exit_iff (ml : MultilevelLevelSet.t) (position : Vecd)
    (h_ratio : Real) :
  MultilevelLevelSet.well_formed ml ->
  (probeKernelIntegral ml position h_ratio = Exits 1 <->
   Forall (fun r => (h_ratio - r <= - Eps)%Q) (MultilevelLevelSet.level_ratios ml)) /\
  (probeKernelGradientIntegral ml position h_ratio = Exits 1 <->
   Forall (fun r => (h_ratio - r <= - Eps)%Q) (MultilevelLevelSet.level_ratios ml)).
Proof.
  intros Hwf. rewrite <- (getMeshLevel_exits_iff Eps ml h_ratio Hwf).
  unfold MultilevelLevelSet.probeKernelIntegral,
    MultilevelLevelSet.probeKernelGradientIntegral.
  destruct (getMeshLevel_outcomes Eps ml h_ratio Hwf) as [Hex|(i & _ & Hret)].
  - rewrite Hex. simpl. split; split; intros _; reflexivity.
  - rewrite Hret. simpl. unfold vec_at.
    destruct (MultilevelLevelSet.mesh_levels_ ml !! (i + 1)%nat); simpl;
      [destruct (MultilevelLevelSet.mesh_levels_ ml !! i); simpl|];
      split; split; discriminate.
Qed.

(** X3.  On a hierarchy with at most one level the blended probes never
    return a value: the level search exits, or it returns level [0] and
    the probe reads [mesh_levels_[1]], past the end. *)
Theorem blended_probes_need_two_levels (ml : MultilevelLevelSet.t)
    (position : Vecd) (h_ratio : Real) :
  MultilevelLevelSet.well_formed ml ->
  (MultilevelLevelSet.total_levels_ ml <= 1)%nat ->
  (probeKernelIntegral ml position h_ratio = Exits 1 /\
   probeKernelGradientIntegral ml position h_ratio = Exits 1) \/
  (probeKernelIntegral ml position h_ratio = OutOfBounds 1 /\
   probeKernelGradientIntegral ml position h_ratio = OutOfBounds 1).
Proof.
  intros Hwf Hone.
  unfold MultilevelLevelSet.probeKernelIntegral,
    MultilevelLevelSet.probeKernelGradientIntegral.
  destruct (getMeshLevel_outcomes Eps ml h_ratio Hwf) as [Hex|(i & Hi & Hret)].
  - left. rewrite Hex. split; reflexivity.
  - right. rewrite Hret. simpl. assert (i = 0%nat) as -> by lia. simpl.
    unfold vec_at.
    assert (Hnone : MultilevelLevelSet.mesh_levels_ ml !! 1%nat = None).
    { apply lookup_ge_None. unfold MultilevelLevelSet.well_formed in Hwf. lia. }
    rewrite Hnone. split; reflexivity.
Qed.


End BlendedProbeMore.

(** X2, witness: the hierarchy of ratios [1] and [2]. *)
Lemma blended_probes_exit_iff_witness :
  (MultilevelLevelSet.probeKernelIntegral Eps_double 1 ratio_probe_Real
     two_levels [0; 0]%Q (1 # 2) = Exits 1 <->
   Forall (fun r => ((1 # 2) - r <= - Eps_double)%Q)
          (MultilevelLevelSet.level_ratios two_levels)) /\
  (MultilevelLevelSet.probeKernelGradientIntegral Eps_double 1 ratio_probe_Vecd
     two_levels [0; 0]%Q (1 # 2) = Exits 1 <->
   Forall (fun r => ((1 # 2) - r <= - Eps_double)%Q)
          (MultilevelLevelSet.level_ratios two_levels)).
Proof.
  apply (blended_probes_exit_iff Eps_double 1 ratio_probe_Real ratio_probe_Vecd
           two_levels [0; 0]%Q (1 # 2)).
  reflexivity.
Defined.


(** X3, witness: the hierarchy of the single level of ratio [1]. *)
Lemma blended_probes_need_two_levels_witness :
  (MultilevelLevelSet.probeKernelIntegral Eps_double 1 ratio_probe_Real
     one_level [0; 0]%Q 1 = Exits 1 /\
   MultilevelLevelSet.probeKernelGradientIntegral Eps_double 1 ratio_probe_Vecd
     one_level [0; 0]%Q 1 = Exits 1) \/
  (MultilevelLevelSet.probeKernelIntegral Eps_double 1 ratio_probe_Real
     one_level [0; 0]%Q 1 = OutOfBounds 1 /\
   MultilevelLevelSet.probeKernelGradientIntegral Eps_double 1 ratio_probe_Vecd
     one_level [0; 0]%Q 1 = OutOfBounds 1).
Proof.
  apply (blended_probes_need_two_levels Eps_double 1 ratio_probe_Real
           ratio_probe_Vecd one_level [0; 0]%Q 1); [reflexivity | simpl; lia].
Defined.

(** ** The direct probes of a hierarchy *)

Section DirectProbeFacts.
Variable isWithinCorePackage : LevelSet.t -> Vecd -> bool.
Variable CellIndexFromPosition : LevelSet.t -> Vecd -> Vecu.
Variable probeMesh_Real : RealField -> LevelSet.t -> Vecd -> Real.
Variable probeMesh_Vecd : VecdField -> LevelSet.t -> Vecd -> Vecd.

Abbreviation getProbeLevel_from :=
  (MultilevelLevelSet.getProbeLevel_from isWithinCorePackage).
Abbreviation getProbeLevel := (MultilevelLevelSet.getProbeLevel isWithinCorePackage).

(** What the loop of [getProbeLevel] does from any counter value within
    the levels held: it never reads past the end and never exits; it
    returns the last index below the counter whose core region holds the
    position, or [0] when there is none. *)
Lemma getProbeLevel_from_spec (ml : MultilevelLevelSet.t) (level : nat)
    (position : Vecd) :
  (level <= length (MultilevelLevelSet.mesh_levels_ ml))%nat ->
  exists i,
    getProbeLevel_from ml level position = Returns i /\
    (forall j m, (i < j < level)%nat -> MultilevelLevelSet.mesh_levels_ ml !! j = Some m ->
                 isWithinCorePackage m position = false) /\
    (((i < level)%nat /\
      exists m, MultilevelLevelSet.mesh_levels_ ml !! i = Some m /\
                isWithinCorePackage m position = true) \/
     (i = 0%nat /\
      forall j m, (j < level)%nat -> MultilevelLevelSet.mesh_levels_ ml !! j = Some m ->
                  isWithinCorePackage m position = false)).
Proof.
  induction level as [|level IH]; intros Hlen; simpl.
  - exists 0%nat. split; [reflexivity|]. split; [intros; lia|].
    right. split; [reflexivity|]. intros; lia.
  - unfold vec_at.
    destruct (MultilevelLevelSet.mesh_levels_ ml !! level) as [m|] eqn:Hm.
    2:{ apply lookup_ge_None in Hm. lia. }
    simpl. destruct (isWithinCorePackage m position) eqn:Hcore.
    + exists level. split; [reflexivity|]. split; [intros; lia|].
      left. split; [lia|]. exists m. split; [exact Hm|exact Hcore].
    + destruct (IH ltac:(lia)) as (i & Hret & Habove & Hcase).
      assert (Hstep : forall j m', (j < S level)%nat -> ~ (j < level)%nat ->
                MultilevelLevelSet.mesh_levels_ ml !! j = Some m' ->
                isWithinCorePackage m' position = false).
      { intros j m' Hj Hnj Hjm. assert (j = level) as -> by lia.
        rewrite Hm in Hjm. injection Hjm as <-. exact Hcore. }
      exists i. split; [exact Hret|]. split.
      * intros j m' Hj Hjm. destruct (lt_dec j level) as [Hlt|Hge].
        -- apply (Habove j m'); [lia|exact Hjm].
        -- apply (Hstep j m'); [lia|exact Hge|exact Hjm].
      * destruct Hcase as [(Hi & Hex)|(Hi & Hnone)].
        -- left. split; [lia|exact Hex].
        -- right. split; [exact Hi|]. intros j m' Hj Hjm.
           destruct (lt_dec j level) as [Hlt|Hge].
           ++ apply (Hnone j m' Hlt Hjm).
           ++ apply (Hstep j m'); [lia|exact Hge|exact Hjm].
Qed.

(** X5.  [getProbeLevel] always returns; it never exits and never reads
    past the levels.  Its answer is the finest level whose core region
    holds the position, and the coarsest level [0] when no level's core
    region does. *)
Theorem getProbeLevel_finest_core_level (ml : MultilevelLevelSet.t)
    (position : Vecd) :
  MultilevelLevelSet.well_formed ml ->
  exists i,
    getProbeLevel ml position = Returns i /\
    (forall j m, (i < j)%nat -> MultilevelLevelSet.mesh_levels_ ml !! j = Some m ->
                 isWithinCorePackage m position = false) /\
    ((exists m, MultilevelLevelSet.mesh_levels_ ml !! i = Some m /\
                isWithinCorePackage m position = true) \/
     (i = 0%nat /\
      Forall (fun m => isWithinCorePackage m position = false)
             (MultilevelLevelSet.mesh_levels_ ml))).
Proof.
  intros Hwf. unfold MultilevelLevelSet.well_formed in Hwf.
  destruct (getProbeLevel_from_spec ml (MultilevelLevelSet.total_levels_ ml) position
              ltac:(lia)) as (i & Hret & Habove & Hcase).
  exists i. split; [exact Hret|]. split.
  - intros j m Hj Hjm. apply (Habove j m); [|exact Hjm].
    apply lookup_lt_Some in Hjm. lia.
  - destruct Hcase as [(_ & Hex)|(Hi & Hnone)]; [left; exact Hex|right].
    split; [exact Hi|]. apply Forall_lookup. intros j m Hjm.
    apply (Hnone j m); [|exact Hjm]. apply lookup_lt_Some in Hjm. lia.
Qed.

(** X6.  On a hierarchy with at least one level the three direct probes
    return a value, the value of the single level [getProbeLevel]
    selects; no read goes past the levels. *)
Theorem direct_probes_return (ml : MultilevelLevelSet.t) (position : Vecd) :
  MultilevelLevelSet.well_formed ml ->
  (0 < MultilevelLevelSet.total_levels_ ml)%nat ->
  exists i m,
    getProbeLevel ml position = Returns i /\
    MultilevelLevelSet.mesh_levels_ ml !! i = Some m /\
    MultilevelLevelSet.probeSignedDistance isWithinCorePackage probeMesh_Real
      ml position = Returns (LevelSet.probeSignedDistance probeMesh_Real m position) /\
    MultilevelLevelSet.probeNormalDirection isWithinCorePackage probeMesh_Vecd
      ml position = Returns (LevelSet.probeNormalDirection probeMesh_Vecd m position) /\
    MultilevelLevelSet.probeNoneNormalizedNormalDirection isWithinCorePackage
      probeMesh_Vecd ml position
    = Returns (LevelSet.probeNoneNormalizedNormalDirection probeMesh_Vecd m position).
Proof.
  intros Hwf Hpos. unfold MultilevelLevelSet.well_formed in Hwf.
  destruct (getProbeLevel_from_spec ml (MultilevelLevelSet.total_levels_ ml) position
              ltac:(lia)) as (i & Hret & _ & Hcase).
  change (getProbeLevel ml position = Returns i) in Hret.
  assert (Hm : exists m, MultilevelLevelSet.mesh_levels_ ml !! i = Some m).
  { destruct Hcase as [(_ & m & Hm & _)|(-> & _)]; [exists m; exact Hm|].
    apply lookup_lt_is_Some. lia. }
  destruct Hm as (m & Hm). exists i, m. split; [exact Hret|]. split; [exact Hm|].
  unfold MultilevelLevelSet.probeSignedDistance,
    MultilevelLevelSet.probeNormalDirection,
    MultilevelLevelSet.probeNoneNormalizedNormalDirection.
  rewrite Hret. simpl. unfold vec_at. rewrite Hm. simpl.
  repeat split; reflexivity.
Qed.

(** X7.  On a hierarchy without levels [getProbeLevel] still returns [0],
    and the three direct probes read [mesh_levels_[0]], which does not
    exist. *)
Theorem direct_probes_without_levels (ml : MultilevelLevelSet.t) (position : Vecd) :
  MultilevelLevelSet.well_formed ml ->
  MultilevelLevelSet.total_levels_ ml = 0%nat ->
  getProbeLevel ml position = Returns 0%nat /\
  MultilevelLevelSet.probeSignedDistance isWithinCorePackage probeMesh_Real
    ml position = OutOfBounds 0 /\
  MultilevelLevelSet.probeNormalDirection isWithinCorePackage probeMesh_Vecd
    ml position = OutOfBounds 0 /\
  MultilevelLevelSet.probeNoneNormalizedNormalDirection isWithinCorePackage
    probeMesh_Vecd ml position = OutOfBounds 0.
Proof.
  intros Hwf Hzero. unfold MultilevelLevelSet.well_formed in Hwf.
  assert (Hnil : MultilevelLevelSet.mesh_levels_ ml = []).
  { apply length_zero_iff_nil. lia. }
  unfold MultilevelLevelSet.probeSignedDistance,
    MultilevelLevelSet.probeNormalDirection,
    MultilevelLevelSet.probeNoneNormalizedNormalDirection,
    MultilevelLevelSet.getProbeLevel.
  rewrite Hzero, Hnil. simpl. repeat split; reflexivity.
Qed.

(** The loop over the levels from [l] on answers whether all of them
    report the position within their bound. *)
Lemma within_bound_levels_spec (ml : MultilevelLevelSet.t) (remaining l : nat)
    (position : Vecd) :
  (l + remaining)%nat = length (MultilevelLevelSet.mesh_levels_ ml) ->
  exists b,
    MultilevelLevelSet.within_bound_levels CellIndexFromPosition ml remaining l position
    = Returns b /\
    (b = true <->
     Forall (fun m => LevelSet.probeIsWithinMeshBound (CellIndexFromPosition m) m position
                      = true)
            (drop l (MultilevelLevelSet.mesh_levels_ ml))).
Proof.
  revert l. induction remaining as [|remaining IH]; intros l Hlen; simpl.
  - exists true. split; [reflexivity|]. rewrite drop_ge by lia.
    split; [intros _; constructor|reflexivity].
  - unfold vec_at.
    destruct (MultilevelLevelSet.mesh_levels_ ml !! l) as [m|] eqn:Hm.
    2:{ apply lookup_ge_None in Hm. lia. }
    simpl. pose proof (drop_S _ _ _ Hm) as Hdrop.
    destruct (LevelSet.probeIsWithinMeshBound (CellIndexFromPosition m) m position)
      eqn:Hb; simpl.
    + destruct (IH (S l) ltac:(lia)) as (b & Hrun & Hiff).
      exists b. split; [exact Hrun|]. rewrite Hdrop, Forall_cons, Hiff.
      split; [intros H; split; [exact Hb|exact H]|intros [_ H]; exact H].
    + exists false. split; [reflexivity|]. rewrite Hdrop, Forall_cons.
      split; [discriminate|]. intros [Hfalse _]. congruence.
Qed.

(** X8.  [probeIsWithinMeshBound] of a hierarchy always returns, and it
    returns true exactly when every level reports the position within its
    own bound; on a hierarchy without levels it returns true. *)
Theorem probeIsWithinMeshBound_all_levels (ml : MultilevelLevelSet.t)
    (position : Vecd) :
  MultilevelLevelSet.well_formed ml ->
  exists b,
    MultilevelLevelSet.probeIsWithinMeshBound CellIndexFromPosition ml position
    = Returns b /\
    (b = true <->
     Forall (fun m => LevelSet.probeIsWithinMeshBound (CellIndexFromPosition m) m position
                      = true)
            (MultilevelLevelSet.mesh_levels_ ml)).
Proof.
  intros Hwf. unfold MultilevelLevelSet.well_formed in Hwf.
  apply (within_bound_levels_spec ml (MultilevelLevelSet.total_levels_ ml) 0 position).
  lia.
Qed.

End DirectProbeFacts.

(** X5, witness: the hierarchy of ratios [1] and [2], where only the
    coarse level's core region holds the position. *)
Lemma getProbeLevel_finest_core_level_witness :
  exists i,
    MultilevelLevelSet.getProbeLevel coarse_core_only two_levels [0; 0]%Q = Returns i /\
    (forall j m, (i < j)%nat ->
                 MultilevelLevelSet.mesh_levels_ two_levels !! j = Some m ->
                 coarse_core_only m [0; 0]%Q = false) /\
    ((exists m, MultilevelLevelSet.mesh_levels_ two_levels !! i = Some m /\
                coarse_core_only m [0; 0]%Q = true) \/
     (i = 0%nat /\
      Forall (fun m => coarse_core_only m [0; 0]%Q = false)
             (MultilevelLevelSet.mesh_levels_ two_levels))).
Proof.
  apply (getProbeLevel_finest_core_level coarse_core_only two_levels [0; 0]%Q).
  reflexivity.
Defined.

(** X6, witness: the same hierarchy and position. *)
Lemma direct_probes_return_witness :
  exists i m,
    MultilevelLevelSet.getProbeLevel coarse_core_only two_levels [0; 0]%Q = Returns i /\
    MultilevelLevelSet.mesh_levels_ two_levels !! i = Some m /\
    MultilevelLevelSet.probeSignedDistance coarse_core_only ratio_probe_Real
      two_levels [0; 0]%Q
    = Returns (LevelSet.probeSignedDistance ratio_probe_Real m [0; 0]%Q) /\
    MultilevelLevelSet.probeNormalDirection coarse_core_only ratio_probe_Vecd
      two_levels [0; 0]%Q
    = Returns (LevelSet.probeNormalDirection ratio_probe_Vecd m [0; 0]%Q) /\
    MultilevelLevelSet.probeNoneNormalizedNormalDirection coarse_core_only
      ratio_probe_Vecd two_levels [0; 0]%Q
    = Returns (LevelSet.probeNoneNormalizedNormalDirection ratio_probe_Vecd m [0; 0]%Q).
Proof.
  apply (direct_probes_return coarse_core_only ratio_probe_Real ratio_probe_Vecd
           two_levels [0; 0]%Q); [reflexivity | simpl; lia].
Defined.

(** X7, witness: the hierarchy without levels. *)
Lemma direct_probes_without_levels_witness :
  MultilevelLevelSet.getProbeLevel coarse_core_only no_level [0; 0]%Q = Returns 0%nat /\
  MultilevelLevelSet.probeSignedDistance coarse_core_only ratio_probe_Real
    no_level [0; 0]%Q = OutOfBounds 0 /\
  MultilevelLevelSet.probeNormalDirection coarse_core_only ratio_probe_Vecd
    no_level [0; 0]%Q = OutOfBounds 0 /\
  MultilevelLevelSet.probeNoneNormalizedNormalDirection coarse_core_only
    ratio_probe_Vecd no_level [0; 0]%Q = OutOfBounds 0.
Proof.
  apply (direct_probes_without_levels coarse_core_only ratio_probe_Real
           ratio_probe_Vecd no_level [0; 0]%Q); reflexivity.
Defined.

(** X8, witness: the hierarchy of ratios [1] and [2] at the position
    [(3.5, 3.5)]. *)
Lemma probeIsWithinMeshBound_all_levels_witness :
  exists b,
    MultilevelLevelSet.probeIsWithinMeshBound unit_cell_index_of two_levels
      [7 # 2; 7 # 2]%Q = Returns b /\
    (b = true <->
     Forall (fun m => LevelSet.probeIsWithinMeshBound (unit_cell_index_of m) m
                        [7 # 2; 7 # 2]%Q = true)
            (MultilevelLevelSet.mesh_levels_ two_levels)).
Proof.
  apply (probeIsWithinMeshBound_all_levels unit_cell_index_of two_levels
           [7 # 2; 7 # 2]%Q).
  reflexivity.
Defined.

(** ** More on [probeIsWithinMeshBound] of a single level *)

(** X9.  For a position whose cell lies in the mesh, the probe answers
    true exactly when every component [c] of the cell index satisfies
    [2 <= c <= n - 2], with [n] the number of cells in that direction: two
    cells are kept clear at the lower edge and one at the upper edge.  In
    particular a mesh with fewer than four cells in some direction has no
    position within its bound. *)
Theorem probeIsWithinMeshBound_true_iff (CellIndexFromPosition : Vecd -> Vecu)
    (s : LevelSet.t) (position : Vecd) :
  Forall2 (fun c n => 0 <= c < n /\ n < size_t_modulus)%Z
          (CellIndexFromPosition position) (LevelSet.number_of_cells_ s) ->
  (LevelSet.probeIsWithinMeshBound CellIndexFromPosition s position = true <->
   Forall2 (fun c n => 2 <= c <= n - 2)%Z
           (CellIndexFromPosition position) (LevelSet.number_of_cells_ s)) /\
  (Exists (fun n => n < 4)%Z (LevelSet.number_of_cells_ s) ->
   LevelSet.probeIsWithinMeshBound CellIndexFromPosition s position = false).
Proof.
  unfold LevelSet.probeIsWithinMeshBound.
  generalize (CellIndexFromPosition position) (LevelSet.number_of_cells_ s).
  intros cell_pos number_of_cells Hrange.
  assert (Hiff : LevelSet.within_bound_loop cell_pos number_of_cells true = true <->
                 Forall2 (fun c n => 2 <= c <= n - 2)%Z cell_pos number_of_cells).
  { induction Hrange as [|c n cs ns [Hc Hn] Hrest IH]; simpl.
    - split; [intros _; constructor|reflexivity].
    - rewrite Forall2_cons. destruct (Z.ltb_spec c 2) as [Hlt|Hge].
      + assert (Hfalse : LevelSet.within_bound_loop cs ns
                           (if (c >? size_t_sub n 2)%Z then false else false) = false).
        { destruct (c >? size_t_sub n 2)%Z; apply within_bound_loop_false. }
        rewrite Hfalse. split; [discriminate|]. intros [H _]. lia.
      + assert (Hsub : size_t_sub n 2 = (n - 2)%Z).
        { unfold size_t_sub, size_t_wrap. apply Z.mod_small. lia. }
        rewrite Hsub. destruct (Z.gtb_spec c (n - 2)) as [Hgt|Hle].
        * rewrite within_bound_loop_false. split; [discriminate|]. intros [H _]. lia.
        * rewrite IH. split; [intros H; split; [lia|exact H]|intros [_ H]; exact H]. }
  split; [exact Hiff|].
  intros Hthin.
  apply not_true_is_false. intros Hrun. apply Hiff in Hrun. clear Hiff Hrange.
  induction Hrun as [|c n cs ns Hcn Hrest IH]; [inversion Hthin|].
  apply Exists_cons in Hthin as [Hn|Hthin]; [lia|exact (IH Hthin)].
Qed.

(** X9, witness: the mesh of [8 x 8] cells at the position [(3.5, 3.5)]. *)
Lemma probeIsWithinMeshBound_true_iff_witness :
  (LevelSet.probeIsWithinMeshBound unit_cell_index (mesh_of_ratio 1)
     [7 # 2; 7 # 2]%Q = true <->
   Forall2 (fun c n => 2 <= c <= n - 2)%Z
           (unit_cell_index [7 # 2; 7 # 2]%Q)
           (LevelSet.number_of_cells_ (mesh_of_ratio 1))) /\
  (Exists (fun n => n < 4)%Z (LevelSet.number_of_cells_ (mesh_of_ratio 1)) ->
   LevelSet.probeIsWithinMeshBound unit_cell_index (mesh_of_ratio 1)
     [7 # 2; 7 # 2]%Q = false).
Proof.
  apply (probeIsWithinMeshBound_true_iff unit_cell_index (mesh_of_ratio 1)
           [7 # 2; 7 # 2]%Q).
  repeat constructor; vm_compute; congruence.
Defined.

(** ** More on [computeHeaviside] *)

Section HeavisideMore.
Local Open Scope R_scope.

Lemma normalized_band (phi half_width : R) :
  0 < half_width -> - half_width < phi < half_width ->
  -1 < phi / half_width < 1.
Proof.
  intros Hw [Hlo Hhi]. split.
  - apply Rmult_lt_reg_r with half_width; [exact Hw|].
    unfold Rdiv. rewrite Rmult_assoc, Rinv_l by lra. lra.
  - apply Rmult_lt_reg_r with half_width; [exact Hw|].
    unfold Rdiv. rewrite Rmult_assoc, Rinv_l by lra. lra.
Qed.

(** Inside the open band the function is the smooth ramp. *)
Lemma computeHeaviside_in_band (phi half_width : R) :
  0 < half_width -> - half_width < phi < half_width ->
  BaseLevelSet.computeHeaviside phi half_width
  = (0.5 + 0.5 * (phi / half_width)) + 0.5 * sin (PI * (phi / half_width)) / PI.
Proof.
  intros Hw Hband. pose proof (normalized_band phi half_width Hw Hband) as Hn.
  unfold BaseLevelSet.computeHeaviside.
  destruct (Rgt_dec (phi / half_width) 1) as [Hsat|_]; [lra|].
  destruct (Rlt_dec phi half_width) as [_|Hn1]; [|lra].
  destruct (Rgt_dec phi (- half_width)) as [_|Hn2]; [reflexivity|lra].
Qed.

(** X10.  At [phi = 0], on the surface, the function is [1/2] for every
    positive half width: the quotient, the sine and its term are all
    zero there. *)
Theorem computeHeaviside_at_zero (half_width : R) :
  0 < half_width ->
  BaseLevelSet.computeHeaviside 0 half_width = 0.5.
Proof.
  intros Hw.
  rewrite (computeHeaviside_in_band 0 half_width Hw) by lra.
  replace (0 / half_width) with 0 by (field; lra).
  replace (PI * 0) with 0 by ring. rewrite sin_0. unfold Rdiv. lra.
Qed.

(** X11.  The function is not monotone at the upper edge of the band: it
    is at least [1/2] on [0 <= phi < half_width] and at most [1/2] on
    [-half_width < phi <= 0], and it is [0] at [phi = half_width]. *)
Theorem computeHeaviside_drops_at_upper_edge (phi half_width : R) :
  0 < half_width ->
  (0 <= phi < half_width -> 0.5 <= BaseLevelSet.computeHeaviside phi half_width) /\
  (- half_width < phi <= 0 -> BaseLevelSet.computeHeaviside phi half_width <= 0.5) /\
  BaseLevelSet.computeHeaviside half_width half_width = 0.
Proof.
  intros Hw. pose proof PI_RGT_0 as Hpi.
  assert (Hinv : 0 < / PI) by (apply Rinv_0_lt_compat; exact Hpi).
  split; [|split].
  - intros [Hlo Hhi].
    rewrite (computeHeaviside_in_band phi half_width Hw) by lra.
    pose proof (normalized_band phi half_width Hw ltac:(lra)) as [_ Hx1].
    assert (Hx0 : 0 <= phi / half_width).
    { unfold Rdiv. apply Rmult_le_pos; [exact Hlo|]. left.
      apply Rinv_0_lt_compat. exact Hw. }
    assert (Hsin : 0 <= sin (PI * (phi / half_width))).
    { apply sin_ge_0; [apply Rmult_le_pos; lra|]. nra. }
    assert (Hq : 0 <= sin (PI * (phi / half_width)) * / PI)
      by (apply Rmult_le_pos; lra).
    unfold Rdiv in *. lra.
  - intros [Hlo Hhi].
    rewrite (computeHeaviside_in_band phi half_width Hw) by lra.
    pose proof (normalized_band phi half_width Hw ltac:(lra)) as [Hx1 _].
    assert (Hx0 : phi / half_width <= 0).
    { unfold Rdiv. replace 0 with (0 * / half_width) by ring.
      apply Rmult_le_compat_r; [left; apply Rinv_0_lt_compat; exact Hw|exact Hhi]. }
    assert (Hsin : sin (PI * (phi / half_width)) <= 0).
    { pose proof (sin_ge_0 (- (PI * (phi / half_width))) ltac:(nra) ltac:(nra)) as H.
      rewrite sin_neg in H. lra. }
    assert (Hq : sin (PI * (phi / half_width)) * / PI <= 0).
    { replace 0 with (0 * / PI) by ring. apply Rmult_le_compat_r; lra. }
    unfold Rdiv in *. lra.
  - unfold BaseLevelSet.computeHeaviside.
    replace (half_width / half_width) with 1 by (field; lra).
    destruct (Rgt_dec 1 1) as [H|_]; [lra|].
    destruct (Rlt_dec half_width half_width) as [H|_]; [lra|reflexivity].
Qed.

(** X12.  With a negative half width the band is empty and the
    saturation test is reversed: the function returns [1] for every
    [phi < half_width] and [0] for every other [phi]. *)
Theorem computeHeaviside_negative_half_width (phi half_width : R) :
  half_width < 0 ->
  (phi < half_width -> BaseLevelSet.computeHeaviside phi half_width = 1) /\
  (half_width <= phi -> BaseLevelSet.computeHeaviside phi half_width = 0).
Proof.
  intros Hw.
  assert (Hinv : / half_width < 0) by (apply Rinv_lt_0_compat; exact Hw).
  assert (Hnorm : phi / half_width > 1 <-> phi < half_width).
  { unfold Rdiv. split; intros H.
    - assert (Hm : (phi * / half_width) * half_width < 1 * half_width).
      { apply Rmult_lt_gt_compat_neg_l with (r := half_width) in H; [|exact Hw].
        lra. }
      rewrite Rmult_assoc, Rinv_l in Hm by lra. lra.
    - assert (Hm : half_width * / half_width < phi * / half_width).
      { apply Rmult_lt_gt_compat_neg_l with (r := / half_width) in H; [|exact Hinv].
        lra. }
      rewrite Rinv_r in Hm by lra. lra. }
  unfold BaseLevelSet.computeHeaviside.
  destruct (Rgt_dec (phi / half_width) 1) as [Hsat|Hnsat].
  - apply Hnorm in Hsat. split; [reflexivity|lra].
  - assert (Hge : half_width <= phi).
    { destruct (Rle_dec half_width phi) as [H|H]; [exact H|].
      exfalso. apply Hnsat, Hnorm. lra. }
    destruct (Rlt_dec phi half_width) as [Hlt|_]; [lra|].
    split; [lra|reflexivity].
Qed.

End HeavisideMore.

(** X10, witness: half width [2]. *)
Lemma computeHeaviside_at_zero_witness :
  (BaseLevelSet.computeHeaviside 0 2 = 0.5)%R.
Proof. apply (computeHeaviside_at_zero 2); lra. Defined.

(** X11, witness: half width [2] at [phi = 1]. *)
Lemma computeHeaviside_drops_at_upper_edge_witness :
  ((0 <= 1 < 2 -> 0.5 <= BaseLevelSet.computeHeaviside 1 2) /\
   (- 2 < 1 <= 0 -> BaseLevelSet.computeHeaviside 1 2 <= 0.5) /\
   BaseLevelSet.computeHeaviside 2 2 = 0)%R.
Proof. apply (computeHeaviside_drops_at_upper_edge 1 2); lra. Defined.

(** X12, witness: half width [-1] at [phi = -2]. *)
Lemma computeHeaviside_negative_half_width_witness :
  ((- 2 < - 1 -> BaseLevelSet.computeHeaviside (- 2) (- 1) = 1) /\
   (- 1 <= - 2 -> BaseLevelSet.computeHeaviside (- 2) (- 1) = 0))%R.
Proof. apply (computeHeaviside_negative_half_width (- 2) (- 1)); lra. Defined.

(** ** More on classification *)

Lemma mesh_cells_sound (cell_index upper : Vecu) :
  In cell_index (LevelSet.mesh_cells upper) ->
  Forall2 (fun c n => (0 <= c < n)%Z) cell_index upper.
Proof.
  revert cell_index. induction upper as [|n upper IH]; intros cell_index Hin; simpl in Hin.
  - destruct Hin as [<-|[]]. constructor.
  - apply in_flat_map in Hin as (i & Hi & Hin).
    apply in_map_iff in Hin as (rest & <- & Hrest).
    apply in_map_iff in Hi as (k & <- & Hk). apply in_seq in Hk.
    constructor; [lia|]. apply IH. exact Hrest.
Qed.

Section ClassificationMore.
Variable CellPositionFromIndex : Vecu -> Vecd.
Variable GridPositionFromCellPosition : Vecd -> Vecd.
Variable initializeBasicData : Shape -> Vecd -> Real -> Vecu -> Real.
Variable mesh : LevelSet.t.

Abbreviation initializeDataInACell :=
  (LevelSet.initializeDataInACell CellPositionFromIndex
     GridPositionFromCellPosition initializeBasicData).
Abbreviation classify :=
  (LevelSet.classify CellPositionFromIndex GridPositionFromCellPosition
     initializeBasicData).
Abbreviation invariant := (LevelSet.classification_invariant mesh).
Abbreviation cell_measure := (LevelSet.cell_measure CellPositionFromIndex mesh).

(** The cells of a list that pass the proximity test. *)
Abbreviation near_cells cells :=
  (List.filter (fun c => Qltb (cell_measure c) (LevelSet.grid_spacing_ mesh)) cells).

(** One call takes one package from the pool, and lists it as core,
    exactly when the cell passes the test; it never touches the list of
    inner packages. *)
Lemma initializeDataInACell_counts (c : Vecu) (s s' : LevelSet.t) :
  invariant s ->
  initializeDataInACell c s = Returns s' ->
  let near := Qltb (cell_measure c) (LevelSet.grid_spacing_ mesh) in
  LevelSet.inner_data_pkgs_ s' = LevelSet.inner_data_pkgs_ s /\
  length (LevelSet.data_pkg_pool_ s')
  = (length (LevelSet.data_pkg_pool_ s) + (if near then 1 else 0))%nat /\
  length (LevelSet.core_data_pkgs_ s')
  = (length (LevelSet.core_data_pkgs_ s) + (if near then 1 else 0))%nat.
Proof.
  intros (Hshape & Hgs & Hn & Hsing & _) Hrun.
  unfold LevelSet.initializeDataInACell in Hrun.
  unfold LevelSet.cell_measure. rewrite Hshape, Hgs in Hrun.
  destruct (Qltb _ (LevelSet.grid_spacing_ mesh)).
  - cbn in Hrun. injection Hrun as <-. cbn.
    rewrite length_alter, !length_app. simpl. repeat split; lia.
  - rewrite Hsing in Hrun.
    destruct (checkContain _ _); cbn in Hrun; injection Hrun as <-; cbn;
      repeat split; lia.
Qed.

(** The whole pass over a list of cells: what it keeps and how much it
    allocates. *)
Lemma MeshIterator_classification_frame (cells : list Vecu) (s : LevelSet.t) :
  invariant s ->
  exists s',
    LevelSet.MeshIterator cells initializeDataInACell s = Returns s' /\
    invariant s' /\
    LevelSet.inner_data_pkgs_ s' = LevelSet.inner_data_pkgs_ s /\
    (forall k pkg, LevelSet.data_pkg_pool_ s !! k = Some pkg ->
                   LevelSet.data_pkg_pool_ s' !! k = Some pkg) /\
    (forall c, ~ In c cells ->
               LevelSet.data_pkg_addrs_ s' !! c = LevelSet.data_pkg_addrs_ s !! c) /\
    length (LevelSet.data_pkg_pool_ s')
    = (length (LevelSet.data_pkg_pool_ s) + length (near_cells cells))%nat /\
    length (LevelSet.core_data_pkgs_ s')
    = (length (LevelSet.core_data_pkgs_ s) + length (near_cells cells))%nat.
Proof.
  revert s. induction cells as [|c cells IH]; intros s Hinv.
  - exists s. simpl. split; [reflexivity|]. split; [exact Hinv|].
    split; [reflexivity|]. split; [auto|]. split; [auto|]. split; lia.
  - destruct (initializeDataInACell_step CellPositionFromIndex
                GridPositionFromCellPosition initializeBasicData mesh c s Hinv)
      as (s1 & Hrun & Hinv1 & _ & Haddr & Hpool & _).
    destruct (initializeDataInACell_counts c s s1 Hinv Hrun) as (Hin1 & Hp1 & Hc1).
    destruct (IH s1 Hinv1) as (s' & Hrest & Hinv' & Hin' & Hpool' & Haddr' & Hp' & Hc').
    exists s'. simpl. rewrite Hrun. simpl. split; [exact Hrest|].
    split; [exact Hinv'|]. split; [congruence|]. split; [|split; [|split]].
    + intros k pkg Hk. apply Hpool', Hpool, Hk.
    + intros c' Hnot. rewrite Haddr' by tauto. apply Haddr. intros ->. tauto.
    + rewrite Hp', Hp1.
      destruct (Qltb (cell_measure c) (LevelSet.grid_spacing_ mesh)); simpl; lia.
    + rewrite Hc', Hc1.
      destruct (Qltb (cell_measure c) (LevelSet.grid_spacing_ mesh)); simpl; lia.
Qed.

(** X13.  Classification takes one package from the pool for every cell
    of the mesh that passes the proximity test and none for the others:
    on a mesh built with no core package yet, the list of core packages
    has as many entries as there are such cells, and the pool holds these
    packages and the two singular ones. *)
Theorem classification_allocates_per_near_cell :
  LevelSet.data_pkg_pool_ mesh = [] ->
  LevelSet.singular_data_pkgs_addrs_ mesh = [] ->
  LevelSet.core_data_pkgs_ mesh = [] ->
  exists s,
    classify mesh = Returns s /\
    length (LevelSet.core_data_pkgs_ s)
    = length (near_cells (LevelSet.mesh_cells (LevelSet.number_of_cells_ mesh))) /\
    length (LevelSet.data_pkg_pool_ s)
    = (2 + length (near_cells (LevelSet.mesh_cells (LevelSet.number_of_cells_ mesh))))%nat /\
    LevelSet.singular_data_pkgs_addrs_ s = [0; 1]%nat.
Proof.
  intros Hpool Hsing Hcore.
  pose proof (LevelSet_buffered_invariant mesh Hpool Hsing) as Hinv.
  destruct (MeshIterator_classification_frame
              (LevelSet.mesh_cells (LevelSet.number_of_cells_ (LevelSet.LevelSet_buffered mesh)))
              (LevelSet.LevelSet_buffered mesh) Hinv)
    as (s & Hrun & Hinv' & _ & _ & _ & Hp & Hc).
  exists s. split; [exact Hrun|].
  cbn in Hp, Hc. rewrite Hpool in Hp. rewrite Hcore in Hc. cbn in Hp, Hc.
  split; [exact Hc|]. split; [exact Hp|]. apply Hinv'.
Qed.

(** X14.  After classification of a mesh built with an empty address
    matrix, a cell index has an address exactly when it lies in the mesh,
    and every address held is an address of the pool. *)
Theorem classification_binds_mesh_cells (cell_index : Vecu) :
  LevelSet.data_pkg_pool_ mesh = [] ->
  LevelSet.singular_data_pkgs_addrs_ mesh = [] ->
  LevelSet.data_pkg_addrs_ mesh = ∅ ->
  exists s,
    classify mesh = Returns s /\
    (is_Some (LevelSet.data_pkg_addrs_ s !! cell_index) <->
     Forall2 (fun i n => (0 <= i < n)%Z) cell_index (LevelSet.number_of_cells_ mesh)) /\
    (forall pkg_addr, LevelSet.data_pkg_addrs_ s !! cell_index = Some pkg_addr ->
                      (pkg_addr < length (LevelSet.data_pkg_pool_ s))%nat).
Proof.
  intros Hpool Hsing Haddrs.
  destruct (classify_classifies CellPositionFromIndex GridPositionFromCellPosition
              initializeBasicData mesh Hpool Hsing) as (s & Hrun & _ & Hall).
  pose proof (LevelSet_buffered_invariant mesh Hpool Hsing) as Hinv.
  destruct (MeshIterator_classification_frame
              (LevelSet.mesh_cells (LevelSet.number_of_cells_ (LevelSet.LevelSet_buffered mesh)))
              (LevelSet.LevelSet_buffered mesh) Hinv)
    as (s0 & Hrun0 & _ & _ & _ & Hout & _).
  unfold LevelSet.classify in Hrun. rewrite Hrun in Hrun0. injection Hrun0 as <-.
  exists s. split; [exact Hrun|].
  assert (Hbound : Forall2 (fun i n => (0 <= i < n)%Z) cell_index
                     (LevelSet.number_of_cells_ mesh) ->
                   exists a pkg, LevelSet.data_pkg_addrs_ s !! cell_index = Some a /\
                                 LevelSet.data_pkg_pool_ s !! a = Some pkg).
  { intros Hcell. specialize (Hall cell_index Hcell).
    unfold LevelSet.classified in Hall.
    destruct (Qltb _ _).
    - destruct Hall as (a & pkg & Ha & Hp & _). eauto.
    - destruct (checkContain _ _); destruct Hall as (a & pkg & _ & Ha & Hp & _); eauto. }
  assert (Hnone : ~ Forall2 (fun i n => (0 <= i < n)%Z) cell_index
                      (LevelSet.number_of_cells_ mesh) ->
                  LevelSet.data_pkg_addrs_ s !! cell_index = None).
  { intros Hnot. rewrite Hout.
    - cbn. rewrite Haddrs. apply lookup_empty.
    - intros Hin. apply Hnot. apply mesh_cells_sound in Hin. exact Hin. }
  destruct (decide (Forall2 (fun i n => (0 <= i < n)%Z) cell_index
                      (LevelSet.number_of_cells_ mesh))) as [Hcell|Hnot].
  - destruct (Hbound Hcell) as (a & pkg & Ha & Hp). split.
    + split; [intros _; exact Hcell|intros _; rewrite Ha; eauto].
    + intros a' Ha'. rewrite Ha in Ha'. injection Ha' as <-.
      apply lookup_lt_Some in Hp. exact Hp.
  - rewrite (Hnone Hnot). split.
    + split; [intros [x Hx]; discriminate|intros Hcell; contradiction].
    + intros a' Ha'. discriminate.
Qed.

End ClassificationMore.

(** X13, witness: the mesh around the half plane [x < 4]. *)
Lemma classification_allocates_per_near_cell_witness :
  exists s,
    LevelSet.classify unit_cell_position unit_grid_position lower_bound_data
      half_plane_mesh = Returns s /\
    length (LevelSet.core_data_pkgs_ s)
    = length (List.filter
                (fun c => Qltb (LevelSet.cell_measure unit_cell_position half_plane_mesh c)
                               (LevelSet.grid_spacing_ half_plane_mesh))
                (LevelSet.mesh_cells (LevelSet.number_of_cells_ half_plane_mesh))) /\
    length (LevelSet.data_pkg_pool_ s)
    = (2 + length (List.filter
                (fun c => Qltb (LevelSet.cell_measure unit_cell_position half_plane_mesh c)
                               (LevelSet.grid_spacing_ half_plane_mesh))
                (LevelSet.mesh_cells (LevelSet.number_of_cells_ half_plane_mesh))))%nat /\
    LevelSet.singular_data_pkgs_addrs_ s = [0; 1]%nat.
Proof.
  apply (classification_allocates_per_near_cell unit_cell_position unit_grid_position
           lower_bound_data half_plane_mesh); reflexivity.
Defined.

(** X14, witness: the cell [(3, 0)] of the same mesh. *)
Lemma classification_binds_mesh_cells_witness :
  exists s,
    LevelSet.classify unit_cell_position unit_grid_position lower_bound_data
      half_plane_mesh = Returns s /\
    (is_Some (LevelSet.data_pkg_addrs_ s !! [3; 0]%Z) <->
     Forall2 (fun i n => (0 <= i < n)%Z) [3; 0]%Z
             (LevelSet.number_of_cells_ half_plane_mesh)) /\
    (forall pkg_addr, LevelSet.data_pkg_addrs_ s !! [3; 0]%Z = Some pkg_addr ->
                      (pkg_addr < length (LevelSet.data_pkg_pool_ s))%nat).
Proof.
  apply (classification_binds_mesh_cells unit_cell_position unit_grid_position
           lower_bound_data half_plane_mesh [3; 0]%Z); reflexivity.
Defined.

(** ** The tagging pass of [finishDataPackages] *)

Lemma has_core_package_tagging_extends (c cell_index : Vecu) (s s' : LevelSet.t) :
  LevelSet.tagging_extends c s s' -> cell_index <> c ->
  LevelSet.has_core_package s cell_index -> LevelSet.has_core_package s' cell_index.
Proof.
  intros (Haddr & Hpool & Hsing & Hcore & Hinner) Hne
    (a & pkg & Ha & Hp & Hns & Hidx & Hflag & Hin).
  destruct (Hpool a pkg Hp) as [Hp'|Hp'].
  - exists a, pkg. rewrite (Haddr _ Hne), Hsing, Hcore. repeat split; auto.
  - exists a, (set_is_inner_pkg_ true pkg).
    rewrite (Haddr _ Hne), Hsing, Hcore. repeat split; auto.
Qed.

Lemma has_singular_package_tagging_extends (c cell_index : Vecu) (s s' : LevelSet.t)
    (i : nat) (far_field : Real) :
  LevelSet.tagging_extends c s s' -> cell_index <> c ->
  LevelSet.has_singular_package s cell_index i far_field ->
  LevelSet.has_singular_package s' cell_index i far_field.
Proof.
  intros (Haddr & Hpool & Hsing & Hcore & Hinner) Hne (a & pkg & Hs & Ha & Hp & Hphi).
  destruct (Hpool a pkg Hp) as [Hp'|Hp'].
  - exists a, pkg. rewrite (Haddr _ Hne), Hsing. repeat split; auto.
  - exists a, (set_is_inner_pkg_ true pkg).
    rewrite (Haddr _ Hne), Hsing. repeat split; auto.
Qed.

Lemma has_padding_package_tagging_extends (c cell_index : Vecu) (s s' : LevelSet.t) :
  LevelSet.tagging_extends c s s' -> cell_index <> c ->
  LevelSet.has_padding_package s cell_index ->
  LevelSet.has_padding_package s' cell_index.
Proof.
  intros (Haddr & Hpool & Hsing & Hcore & Hinner) Hne
    (a & pkg & Ha & Hp & Hns & Hidx & Hflag & Hin & Hlist).
  destruct (Hpool a pkg Hp) as [Hp'|Hp'].
  - exists a, pkg. rewrite (Haddr _ Hne), Hsing. repeat split; auto.
  - exists a, (set_is_inner_pkg_ true pkg).
    rewrite (Haddr _ Hne), Hsing. repeat split; auto.
Qed.

Lemma tagging_extends_refl (c : Vecu) (s : LevelSet.t) :
  LevelSet.tagging_extends c s s.
Proof. unfold LevelSet.tagging_extends. repeat split; auto. Qed.

Section TaggingFacts.
Variable CellPositionFromIndex : Vecu -> Vecd.
Variable GridPositionFromCellPosition : Vecd -> Vecd.
Variable initializeBasicData : Shape -> Vecd -> Real -> Vecu -> Real.
Variable isInnerPackage : LevelSet.t -> Vecu -> bool.
Variable mesh : LevelSet.t.

Abbreviation tagACellIsInnerPackage :=
  (LevelSet.tagACellIsInnerPackage CellPositionFromIndex
     GridPositionFromCellPosition initializeBasicData isInnerPackage).
Abbreviation classify_and_tag :=
  (LevelSet.classify_and_tag CellPositionFromIndex GridPositionFromCellPosition
     initializeBasicData isInnerPackage).
Abbreviation tagged := (LevelSet.tagged CellPositionFromIndex mesh).
Abbreviation tagging_invariant := (LevelSet.tagging_invariant mesh).
Abbreviation cell_measure := (LevelSet.cell_measure CellPositionFromIndex mesh).

Lemma tagged_tagging_extends (c cell_index : Vecu) (s s' : LevelSet.t) :
  LevelSet.tagging_extends c s s' -> cell_index <> c ->
  tagged s cell_index -> tagged s' cell_index.
Proof.
  intros Hext Hne [Hcl|[Hfar Hpad]].
  - left. unfold LevelSet.classified in *. destruct (Qltb _ _).
    + apply (has_core_package_tagging_extends c cell_index s s'); assumption.
    + destruct (checkContain _ _);
        apply (has_singular_package_tagging_extends c cell_index s s'); assumption.
  - right. split; [exact Hfar|].
    apply (has_padding_package_tagging_extends c cell_index s s'); assumption.
Qed.

(** The package a classified cell is bound to is flagged core exactly
    when the cell passes the proximity test. *)
Lemma tagged_binding (c : Vecu) (s : LevelSet.t) :
  tagging_invariant s -> tagged s c ->
  exists a pkg,
    LevelSet.data_pkg_addrs_ s !! c = Some a /\
    LevelSet.data_pkg_pool_ s !! a = Some pkg /\
    ((Qltb (cell_measure c) (LevelSet.grid_spacing_ mesh) = true /\
      is_core_pkg_ pkg = true /\ (a ∉ LevelSet.singular_data_pkgs_addrs_ s) /\
      pkg_index_ pkg = c /\ a ∈ LevelSet.core_data_pkgs_ s) \/
     (Qltb (cell_measure c) (LevelSet.grid_spacing_ mesh) = false /\
      is_core_pkg_ pkg = false)).
Proof.
  intros (_ & Hflags & _) [Hcl|[Hfar Hpad]].
  - unfold LevelSet.classified in Hcl.
    destruct (Qltb (cell_measure c) (LevelSet.grid_spacing_ mesh)) eqn:Htest.
    + destruct Hcl as (a & pkg & Ha & Hp & Hns & Hidx & Hflag & Hin).
      exists a, pkg. split; [exact Ha|]. split; [exact Hp|]. left. repeat split; auto.
    + assert (Hshared : exists i far, LevelSet.has_singular_package s c i far).
      { destruct (checkContain _ _); eauto. }
      destruct Hshared as (i & far & a & pkg & Hs & Ha & Hp & _).
      exists a, pkg. split; [exact Ha|]. split; [exact Hp|]. right.
      split; [reflexivity|]. apply (Hflags a pkg); [|exact Hp].
      apply list_elem_of_lookup. exists i. exact Hs.
  - destruct Hpad as (a & pkg & Ha & Hp & _ & _ & Hflag & _).
    exists a, pkg. split; [exact Ha|]. split; [exact Hp|]. right. split; assumption.
Qed.

(** One call of [tagACellIsInnerPackage] on a classified cell returns,
    keeps the invariant, leaves the cell classified or gives it a padding
    package, and leaves the other cells as they were. *)
Lemma tagACellIsInnerPackage_step (c : Vecu) (s : LevelSet.t) :
  tagging_invariant s -> tagged s c ->
  exists s', tagACellIsInnerPackage c s = Returns s' /\
             tagging_invariant s' /\ tagged s' c /\
             LevelSet.tagging_extends c s s'.
Proof.
  intros Hinv Htag.
  destruct (tagged_binding c s Hinv Htag) as (a & pkg & Ha & Hp & Hcase).
  destruct Hinv as (Hcinv & Hflags & Hinner).
  pose proof Hcinv as (Hshape & Hgs & Hn & Hsing & inside & outside & H0 & H1 & Hin & Hout).
  pose proof (lookup_lt_Some _ _ _ H1) as Hlen.
  unfold LevelSet.tagACellIsInnerPackage.
  destruct (isInnerPackage s c).
  2:{ exists s. split; [reflexivity|].
      split; [split; [exact Hcinv|split; [exact Hflags|exact Hinner]]|].
      split; [exact Htag|apply tagging_extends_refl]. }
  unfold LevelSet.DataPackageFromCellIndex, vec_at. rewrite Ha. simpl. rewrite Hp. simpl.
  destruct Hcase as [(Htest & Hcore & Hns & Hidx & Hlist)|(Htest & Hcore)];
    rewrite Hcore.
  - (* the cell has a core package: flag it and list it *)
    assert (Ha0 : a <> 0%nat /\ a <> 1%nat).
    { rewrite Hsing in Hns. rewrite !not_elem_of_cons in Hns. tauto. }
    eexists. split; [reflexivity|]. split; [|split].
    + split; [|split].
      * unfold LevelSet.classification_invariant. cbn.
        repeat (split; [assumption|]). exists inside, outside.
        rewrite !list_lookup_alter_ne by tauto. repeat split; assumption.
      * cbn. intros k p Hk Hkp. apply (Hflags k p Hk).
        rewrite list_lookup_alter_ne in Hkp; [exact Hkp|]. intros ->. contradiction.
      * cbn. intros k Hk. apply elem_of_app in Hk as [Hk|Hk].
        -- destruct (Hinner k Hk) as (Hkns & p & Hkp & Hflag). split; [exact Hkns|].
           destruct (decide (k = a)) as [->|Hne].
           ++ rewrite list_lookup_alter_eq, Hp. simpl. eexists. split; reflexivity.
           ++ rewrite list_lookup_alter_ne by congruence. eauto.
        -- apply list_elem_of_singleton in Hk as ->. split; [exact Hns|].
           rewrite list_lookup_alter_eq, Hp. simpl. eexists. split; reflexivity.
    + left. unfold LevelSet.classified. rewrite Htest.
      exists a, (set_is_inner_pkg_ true pkg). cbn.
      rewrite list_lookup_alter_eq, Hp. repeat split; assumption.
    + unfold LevelSet.tagging_extends. cbn. split; [auto|]. split; [|split; [|split]].
      * intros k p Hkp. destruct (decide (k = a)) as [->|Hne].
        -- right. rewrite list_lookup_alter_eq, Hkp. reflexivity.
        -- left. rewrite list_lookup_alter_ne by congruence. exact Hkp.
      * reflexivity.
      * reflexivity.
      * intros k Hk. apply elem_of_app. left. exact Hk.
  - (* the cell has no core package: it gets a padding package *)
    cbn. eexists. split; [reflexivity|]. split; [|split].
    + split; [|split].
      * unfold LevelSet.classification_invariant. cbn.
        repeat (split; [assumption|]). exists inside, outside.
        repeat split; try assumption; apply pool_after_create; assumption.
      * cbn. intros k p Hk Hkp. apply (Hflags k p Hk).
        assert (Hklt : (k < length (LevelSet.data_pkg_pool_ s))%nat).
        { rewrite Hsing in Hk. rewrite !elem_of_cons, elem_of_nil in Hk. lia. }
        rewrite list_lookup_alter_ne, lookup_app_l in Hkp by lia. exact Hkp.
      * cbn. intros k Hk. apply elem_of_app in Hk as [Hk|Hk].
        -- destruct (Hinner k Hk) as (Hkns & p & Hkp & Hflag). split; [exact Hkns|].
           exists p. split; [apply pool_after_create; exact Hkp|exact Hflag].
        -- apply list_elem_of_singleton in Hk as ->. split.
           ++ rewrite Hsing, !not_elem_of_cons.
              repeat split; try lia. apply not_elem_of_nil.
           ++ eexists. split; [apply pool_new_package|reflexivity].
    + right. split; [exact Htest|]. eexists _, _. cbn.
      split; [apply lookup_insert_eq|]. split; [apply pool_new_package|].
      rewrite Hsing.
      split; [rewrite !not_elem_of_cons; repeat split; try lia; apply not_elem_of_nil|].
      split; [reflexivity|]. split; [reflexivity|]. split; [reflexivity|].
      apply elem_of_app. right. apply list_elem_of_singleton. reflexivity.
    + unfold LevelSet.tagging_extends. cbn. split; [|split; [|split; [|split]]].
      * intros c' Hne. apply lookup_insert_ne. congruence.
      * intros k p Hkp. left. apply pool_after_create. exact Hkp.
      * reflexivity.
      * reflexivity.
      * intros k Hk. apply elem_of_app. left. exact Hk.
Qed.

(** The tagging pass over cells that are all classified returns and keeps
    every classified cell tagged. *)
Lemma MeshIterator_tags (P : Vecu -> Prop) (cells : list Vecu) (s : LevelSet.t) :
  tagging_invariant s ->
  (forall c, P c -> tagged s c) ->
  (forall c, In c cells -> P c) ->
  exists s', LevelSet.MeshIterator cells tagACellIsInnerPackage s = Returns s' /\
             tagging_invariant s' /\
             (forall c, P c -> tagged s' c).
Proof.
  revert s. induction cells as [|c cells IH]; intros s Hinv Hall Hcells.
  - exists s. split; [reflexivity|]. split; assumption.
  - assert (Hc : P c) by (apply Hcells; left; reflexivity).
    destruct (tagACellIsInnerPackage_step c s Hinv (Hall c Hc))
      as (s1 & Hrun & Hinv1 & Htag1 & Hext).
    destruct (IH s1 Hinv1) as (s' & Hrest & Hinv' & Hall').
    { intros c' Hc'. destruct (decide (c' = c)) as [->|Hne]; [exact Htag1|].
      apply (tagged_tagging_extends c c' s s1 Hext Hne). apply Hall, Hc'. }
    { intros c' Hc'. apply Hcells. right. exact Hc'. }
    exists s'. simpl. rewrite Hrun. simpl. split; [exact Hrest|]. split; assumption.
Qed.

(** Classification followed by tagging returns, with the tagging
    invariant and every cell of the mesh tagged. *)
Lemma classify_and_tag_tags :
  LevelSet.data_pkg_pool_ mesh = [] ->
  LevelSet.singular_data_pkgs_addrs_ mesh = [] ->
  LevelSet.inner_data_pkgs_ mesh = [] ->
  exists s, classify_and_tag mesh = Returns s /\
            tagging_invariant s /\
            (forall c, Forall2 (fun i n => (0 <= i < n)%Z) c (LevelSet.number_of_cells_ mesh)
                       -> tagged s c).
Proof.
  intros Hpool Hsing Hinner.
  destruct (classify_classifies CellPositionFromIndex GridPositionFromCellPosition
              initializeBasicData mesh Hpool Hsing) as (s & Hrun & Hcinv & Hall).
  pose proof (LevelSet_buffered_invariant mesh Hpool Hsing) as Hinv0.
  destruct (MeshIterator_classification_frame CellPositionFromIndex
              GridPositionFromCellPosition initializeBasicData mesh
              (LevelSet.mesh_cells (LevelSet.number_of_cells_ (LevelSet.LevelSet_buffered mesh)))
              (LevelSet.LevelSet_buffered mesh) Hinv0)
    as (s0 & Hrun0 & _ & Hin0 & Hpool0 & _).
  pose proof Hrun as Hrun'. unfold LevelSet.classify in Hrun'.
  rewrite Hrun' in Hrun0. injection Hrun0 as <-.
  assert (Hinv : tagging_invariant s).
  { split; [exact Hcinv|]. split.
    - destruct Hcinv as (_ & _ & _ & Hs & _). rewrite Hs. intros k pkg Hk Hkp.
      assert (Hbuf : exists p, LevelSet.data_pkg_pool_ (LevelSet.LevelSet_buffered mesh) !! k
                               = Some p /\
                               is_core_pkg_ p = false /\ is_inner_pkg_ p = false).
      { cbn. rewrite Hpool. rewrite !elem_of_cons, elem_of_nil in Hk.
        destruct Hk as [->|[->|[]]]; cbn; eexists; repeat split; reflexivity. }
      destruct Hbuf as (p & Hp & Hflags). apply Hpool0 in Hp.
      rewrite Hkp in Hp. injection Hp as ->. exact Hflags.
    - rewrite Hin0. cbn. rewrite Hinner. intros k Hk. inversion Hk. }
  destruct (MeshIterator_tags
              (fun c => Forall2 (fun i n => (0 <= i < n)%Z) c (LevelSet.number_of_cells_ mesh))
              (LevelSet.mesh_cells (LevelSet.number_of_cells_ s)) s Hinv)
    as (s' & Hrun2 & Hinv' & Hall').
  { intros c Hc. left. apply Hall, Hc. }
  { intros c Hc. destruct Hcinv as (_ & _ & Hn & _). rewrite Hn in Hc.
    apply mesh_cells_sound. exact Hc. }
  exists s'. split; [|split; assumption].
  unfold LevelSet.classify_and_tag. rewrite Hrun. simpl. exact Hrun2.
Qed.

(** X15.  The tagging pass does not change which cells have a core
    package: after classification and tagging, a cell of the mesh has a
    core package exactly when it passes the proximity test, and a cell
    that fails the test either still shares the singular package
    classification gave it or has a padding package of its own, flagged
    inner and not core. *)
Theorem tagging_keeps_core_classification (cell_index : Vecu) :
  LevelSet.data_pkg_pool_ mesh = [] ->
  LevelSet.singular_data_pkgs_addrs_ mesh = [] ->
  LevelSet.inner_data_pkgs_ mesh = [] ->
  Forall2 (fun i n => (0 <= i < n)%Z) cell_index (LevelSet.number_of_cells_ mesh) ->
  exists s,
    classify_and_tag mesh = Returns s /\
    (LevelSet.has_core_package s cell_index <->
     (cell_measure cell_index < LevelSet.grid_spacing_ mesh)%Q) /\
    (Qltb (cell_measure cell_index) (LevelSet.grid_spacing_ mesh) = false ->
     (exists i far, LevelSet.has_singular_package s cell_index i far) \/
     LevelSet.has_padding_package s cell_index).
Proof.
  intros Hpool Hsing Hinner Hcell.
  destruct (classify_and_tag_tags Hpool Hsing Hinner) as (s & Hrun & Hinv & Hall).
  exists s. split; [exact Hrun|].
  specialize (Hall cell_index Hcell).
  destruct (tagged_binding cell_index s Hinv Hall) as (a & pkg & Ha & Hp & Hcase).
  split.
  - destruct Hcase as [(Htest & Hcore & Hns & Hidx & Hlist)|(Htest & Hcore)].
    + split; [intros _; apply Qltb_lt; exact Htest|intros _].
      exists a, pkg. repeat split; assumption.
    + apply Qltb_ge in Htest. split; [|intros Hlt; lra].
      intros (a' & pkg' & Ha' & Hp' & _ & _ & Hflag & _).
      rewrite Ha in Ha'. injection Ha' as <-. rewrite Hp in Hp'. injection Hp' as <-.
      congruence.
  - intros Htest. destruct Hall as [Hcl|[_ Hpad]]; [left|right; exact Hpad].
    unfold LevelSet.classified in Hcl. rewrite Htest in Hcl.
    destruct (checkContain _ _); eauto.
Qed.

(** X16.  After classification and tagging of a mesh built with no inner
    package yet, every entry of [inner_data_pkgs_] is the address of a
    package of the pool that is flagged inner and is not one of the two
    singular packages; the singular packages still hold their uniform
    far-field values and are flagged neither core nor inner. *)
Theorem tagging_lists_flagged_packages :
  LevelSet.data_pkg_pool_ mesh = [] ->
  LevelSet.singular_data_pkgs_addrs_ mesh = [] ->
  LevelSet.inner_data_pkgs_ mesh = [] ->
  let far_field_distance :=
    (LevelSet.grid_spacing_ mesh * inject_Z (LevelSet.buffer_width_ mesh))%Q in
  exists s,
    classify_and_tag mesh = Returns s /\
    (forall k, k ∈ LevelSet.inner_data_pkgs_ s ->
               (k ∉ LevelSet.singular_data_pkgs_addrs_ s) /\
               exists pkg, LevelSet.data_pkg_pool_ s !! k = Some pkg /\
                           is_inner_pkg_ pkg = true) /\
    LevelSet.singular_data_pkgs_addrs_ s = [0; 1]%nat /\
    (exists inside outside,
        LevelSet.data_pkg_pool_ s !! 0%nat = Some inside /\
        LevelSet.data_pkg_pool_ s !! 1%nat = Some outside /\
        (forall node, phi_ inside node = (- far_field_distance)%Q) /\
        (forall node, phi_ outside node = far_field_distance) /\
        is_core_pkg_ inside = false /\ is_inner_pkg_ inside = false /\
        is_core_pkg_ outside = false /\ is_inner_pkg_ outside = false).
Proof.
  intros Hpool Hsing Hinner far_field_distance.
  destruct (classify_and_tag_tags Hpool Hsing Hinner)
    as (s & Hrun & (Hcinv & Hflags & Hlist) & _).
  exists s. split; [exact Hrun|]. split; [exact Hlist|].
  destruct Hcinv as (_ & _ & _ & Hs & inside & outside & H0 & H1 & Hin & Hout).
  split; [exact Hs|]. exists inside, outside.
  assert (Hk0 : 0%nat ∈ LevelSet.singular_data_pkgs_addrs_ s)
    by (rewrite Hs; apply elem_of_cons; left; reflexivity).
  assert (Hk1 : 1%nat ∈ LevelSet.singular_data_pkgs_addrs_ s)
    by (rewrite Hs; rewrite !elem_of_cons; right; left; reflexivity).
  destruct (Hflags 0%nat inside Hk0 H0) as [Hc0 Hi0].
  destruct (Hflags 1%nat outside Hk1 H1) as [Hc1 Hi1].
  repeat split; assumption.
Qed.

End TaggingFacts.

(** X15, witness: the cell [(0, 0)] of the mesh around the half plane
    [x < 4], with every cell from the third column on tagged inner. *)
Lemma tagging_keeps_core_classification_witness :
  exists s,
    LevelSet.classify_and_tag unit_cell_position unit_grid_position lower_bound_data
      right_cells_inner half_plane_mesh = Returns s /\
    (LevelSet.has_core_package s [0; 0]%Z <->
     (LevelSet.cell_measure unit_cell_position half_plane_mesh [0; 0]%Z
      < LevelSet.grid_spacing_ half_plane_mesh)%Q) /\
    (Qltb (LevelSet.cell_measure unit_cell_position half_plane_mesh [0; 0]%Z)
          (LevelSet.grid_spacing_ half_plane_mesh) = false ->
     (exists i far, LevelSet.has_singular_package s [0; 0]%Z i far) \/
     LevelSet.has_padding_package s [0; 0]%Z).
Proof.
  apply (tagging_keeps_core_classification unit_cell_position unit_grid_position
           lower_bound_data right_cells_inner half_plane_mesh [0; 0]%Z);
    [reflexivity | reflexivity | reflexivity | repeat constructor; lia].
Defined.

(** X16, witness: the same mesh. *)
Lemma tagging_lists_flagged_packages_witness :
  exists s,
    LevelSet.classify_and_tag unit_cell_position unit_grid_position lower_bound_data
      right_cells_inner half_plane_mesh = Returns s /\
    (forall k, k ∈ LevelSet.inner_data_pkgs_ s ->
               (k ∉ LevelSet.singular_data_pkgs_addrs_ s) /\
               exists pkg, LevelSet.data_pkg_pool_ s !! k = Some pkg /\
                           is_inner_pkg_ pkg = true) /\
    LevelSet.singular_data_pkgs_addrs_ s = [0; 1]%nat /\
    (exists inside outside,
        LevelSet.data_pkg_pool_ s !! 0%nat = Some inside /\
        LevelSet.data_pkg_pool_ s !! 1%nat = Some outside /\
        (forall node, phi_ inside node
                      = (- (LevelSet.grid_spacing_ half_plane_mesh
                            * inject_Z (LevelSet.buffer_width_ half_plane_mesh)))%Q) /\
        (forall node, phi_ outside node
                      = (LevelSet.grid_spacing_ half_plane_mesh
                         * inject_Z (LevelSet.buffer_width_ half_plane_mesh))%Q) /\
        is_core_pkg_ inside = false /\ is_inner_pkg_ inside = false /\
        is_core_pkg_ outside = false /\ is_inner_pkg_ outside = false).
Proof.
  apply (tagging_lists_flagged_packages unit_cell_position unit_grid_position
           lower_bound_data right_cells_inner half_plane_mesh); reflexivity.
Defined.

Section PromotionFacts.
Variable CellPositionFromIndex : Vecu -> Vecd.
Variable GridPositionFromCellPosition : Vecd -> Vecd.
Variable initializeBasicData : Shape -> Vecd -> Real -> Vecu -> Real.
Variable isInnerPackage : LevelSet.t -> Vecu -> bool.
Variable mesh : LevelSet.t.

(** X17.  On a classified mesh, [tagACellIsInnerPackage] on a cell that
    fails the proximity test and is reported inner takes one package from
    the pool and rebinds the cell to it: the cell leaves the singular
    package it shared and has a padding package of its own, at the
    address the pool has grown by; the core packages are left alone. *)
Theorem tagACellIsInnerPackage_promotes (cell_index : Vecu) :
  LevelSet.data_pkg_pool_ mesh = [] ->
  LevelSet.singular_data_pkgs_addrs_ mesh = [] ->
  LevelSet.inner_data_pkgs_ mesh = [] ->
  Forall2 (fun i n => (0 <= i < n)%Z) cell_index (LevelSet.number_of_cells_ mesh) ->
  Qltb (LevelSet.cell_measure CellPositionFromIndex mesh cell_index)
       (LevelSet.grid_spacing_ mesh) = false ->
  exists s,
    LevelSet.classify CellPositionFromIndex GridPositionFromCellPosition
      initializeBasicData mesh = Returns s /\
    (exists i far, LevelSet.has_singular_package s cell_index i far) /\
    (isInnerPackage s cell_index = true ->
     exists s',
       LevelSet.tagACellIsInnerPackage CellPositionFromIndex
         GridPositionFromCellPosition initializeBasicData isInnerPackage
         cell_index s = Returns s' /\
       LevelSet.data_pkg_addrs_ s' !! cell_index
       = Some (length (LevelSet.data_pkg_pool_ s)) /\
       length (LevelSet.data_pkg_pool_ s') = S (length (LevelSet.data_pkg_pool_ s)) /\
       LevelSet.has_padding_package s' cell_index /\
       LevelSet.core_data_pkgs_ s' = LevelSet.core_data_pkgs_ s /\
       LevelSet.inner_data_pkgs_ s'
       = LevelSet.inner_data_pkgs_ s ++ [length (LevelSet.data_pkg_pool_ s)]).
Proof.
  intros Hpool Hsing Hinner Hcell Htest.
  destruct (classify_classifies CellPositionFromIndex GridPositionFromCellPosition
              initializeBasicData mesh Hpool Hsing) as (s & Hrun & Hcinv & Hall).
  exists s. split; [exact Hrun|].
  specialize (Hall cell_index Hcell). unfold LevelSet.classified in Hall.
  rewrite Htest in Hall.
  assert (Hshared : exists i far, LevelSet.has_singular_package s cell_index i far).
  { destruct (checkContain _ _); eauto. }
  split; [exact Hshared|]. intros Hinnerc.
  destruct Hshared as (i & far & a & pkg & Hs & Ha & Hp & _).
  destruct Hcinv as (_ & _ & _ & Hsg & inside & outside & H0 & H1 & _).
  pose proof (lookup_lt_Some _ _ _ H1) as Hlen.
  assert (Hnotcore : is_core_pkg_ pkg = false).
  { pose proof (LevelSet_buffered_invariant mesh Hpool Hsing) as Hinv0.
    destruct (MeshIterator_classification_frame CellPositionFromIndex
                GridPositionFromCellPosition initializeBasicData mesh
                (LevelSet.mesh_cells
                   (LevelSet.number_of_cells_ (LevelSet.LevelSet_buffered mesh)))
                (LevelSet.LevelSet_buffered mesh) Hinv0)
      as (s0 & Hrun0 & _ & _ & Hpool0 & _).
    unfold LevelSet.classify in Hrun. rewrite Hrun in Hrun0. injection Hrun0 as <-.
    assert (Hbuf : exists p, LevelSet.data_pkg_pool_ (LevelSet.LevelSet_buffered mesh) !! a
                             = Some p /\ is_core_pkg_ p = false).
    { rewrite Hsg in Hs. cbn. rewrite Hpool.
      destruct i as [|[|i]]; cbn in Hs; try discriminate;
        injection Hs as <-; cbn; eexists; split; reflexivity. }
    destruct Hbuf as (p & Hbp & Hflag). apply Hpool0 in Hbp.
    rewrite Hp in Hbp. injection Hbp as ->. exact Hflag. }
  unfold LevelSet.tagACellIsInnerPackage. rewrite Hinnerc.
  unfold LevelSet.DataPackageFromCellIndex, vec_at. rewrite Ha. simpl.
  rewrite Hp. simpl. rewrite Hnotcore. cbn.
  eexists. split; [reflexivity|]. cbn.
  split; [apply lookup_insert_eq|].
  split; [rewrite length_alter, length_app; simpl; lia|].
  split; [|split; reflexivity].
  eexists _, _. cbn. split; [apply lookup_insert_eq|].
  split; [apply pool_new_package|]. rewrite Hsg.
  split; [rewrite !not_elem_of_cons; repeat split; try lia; apply not_elem_of_nil|].
  split; [reflexivity|]. split; [reflexivity|]. split; [reflexivity|].
  apply elem_of_app. right. apply list_elem_of_singleton. reflexivity.
Qed.

End PromotionFacts.

(** X17, witness: the cell [(7, 0)] of the mesh around the half plane
    [x < 4]. *)
Lemma tagACellIsInnerPackage_promotes_witness :
  exists s,
    LevelSet.classify unit_cell_position unit_grid_position lower_bound_data
      half_plane_mesh = Returns s /\
    (exists i far, LevelSet.has_singular_package s [7; 0]%Z i far) /\
    (right_cells_inner s [7; 0]%Z = true ->
     exists s',
       LevelSet.tagACellIsInnerPackage unit_cell_position unit_grid_position
         lower_bound_data right_cells_inner [7; 0]%Z s = Returns s' /\
       LevelSet.data_pkg_addrs_ s' !! [7; 0]%Z
       = Some (length (LevelSet.data_pkg_pool_ s)) /\
       length (LevelSet.data_pkg_pool_ s') = S (length (LevelSet.data_pkg_pool_ s)) /\
       LevelSet.has_padding_package s' [7; 0]%Z /\
       LevelSet.core_data_pkgs_ s' = LevelSet.core_data_pkgs_ s /\
       LevelSet.inner_data_pkgs_ s'
       = LevelSet.inner_data_pkgs_ s ++ [length (LevelSet.data_pkg_pool_ s)]).
Proof.
  apply (tagACellIsInnerPackage_promotes unit_cell_position unit_grid_position
           lower_bound_data right_cells_inner half_plane_mesh [7; 0]%Z);
    [reflexivity | reflexivity | reflexivity | repeat constructor; lia | reflexivity].
Defined.

(** ** Classification of a refined level *)

Section RefinedFacts.
Variable CellPositionFromIndex : Vecu -> Vecd.
Variable GridPositionFromCellPosition : Vecd -> Vecd.
Variable initializeBasicData : Shape -> Vecd -> Real -> Vecu -> Real.
Variable probeMesh_Real : RealField -> LevelSet.t -> Vecd -> Real.
Variable isWithinCorePackage : LevelSet.t -> Vecd -> bool.
Variable coarse_mesh_ : LevelSet.t.
Variable mesh : LevelSet.t.

Abbreviation initializeDataInACellFromCoarse :=
  (RefinedLevelSet.initializeDataInACellFromCoarse CellPositionFromIndex
     GridPositionFromCellPosition initializeBasicData probeMesh_Real
     isWithinCorePackage coarse_mesh_).
Abbreviation classify_from_coarse :=
  (RefinedLevelSet.classify_from_coarse CellPositionFromIndex
     GridPositionFromCellPosition initializeBasicData probeMesh_Real
     isWithinCorePackage coarse_mesh_).
Abbreviation classified_from_coarse :=
  (RefinedLevelSet.classified_from_coarse CellPositionFromIndex probeMesh_Real
     isWithinCorePackage coarse_mesh_ mesh).
Abbreviation invariant := (LevelSet.classification_invariant mesh).
Abbreviation cell_measure := (LevelSet.cell_measure CellPositionFromIndex mesh).

(** One call of [initializeDataInACellFromCoarse] returns, keeps the
    invariant, classifies its cell and leaves every other cell as it
    was. *)
Lemma initializeDataInACellFromCoarse_step (c : Vecu) (s : LevelSet.t) :
  invariant s ->
  exists s', initializeDataInACellFromCoarse c s = Returns s' /\
             invariant s' /\ classified_from_coarse s' c /\
             LevelSet.extends_away_from c s s'.
Proof.
  intros (Hshape & Hgs & Hn & Hsing & inside & outside & H0 & H1 & Hin & Hout).
  pose proof (lookup_lt_Some _ _ _ H1) as Hlen.
  assert (Hkeep : forall a, LevelSet.classification_invariant mesh
                              (LevelSet.assignDataPackageAddress c a s)).
  { intros a. unfold LevelSet.classification_invariant. cbn.
    repeat (split; [assumption|]). exists inside, outside. repeat split; assumption. }
  assert (Hext : forall a, LevelSet.extends_away_from c s
                             (LevelSet.assignDataPackageAddress c a s)).
  { intros a. unfold LevelSet.extends_away_from. cbn. split; [|split; [|split]]; auto.
    intros c' Hne. apply lookup_insert_ne. congruence. }
  assert (Hsingular : forall (i : nat) (a : nat) (pkg : LevelSetDataPackage) far,
             LevelSet.singular_data_pkgs_addrs_ s !! i = Some a ->
             LevelSet.data_pkg_pool_ s !! a = Some pkg ->
             (forall node, phi_ pkg node = far) ->
             LevelSet.has_singular_package
               (LevelSet.assignDataPackageAddress c a s) c i far).
  { intros i a pkg far Hi Ha Hphi. exists a, pkg. cbn.
    split; [exact Hi|]. split; [apply lookup_insert_eq|]. split; assumption. }
  unfold RefinedLevelSet.initializeDataInACellFromCoarse,
    RefinedLevelSet.classified_from_coarse, LevelSet.cell_measure.
  rewrite Hsing.
  set (sign := Qltb (LevelSet.probeSignedDistance probeMesh_Real coarse_mesh_
                       (CellPositionFromIndex c)) 0).
  set (a := if sign then 0%nat else 1%nat).
  assert (Hread : (if sign then vec_at [0%nat; 1%nat] 0 else vec_at [0%nat; 1%nat] 1)
                  = Returns a).
  { unfold a. destruct sign; reflexivity. }
  rewrite Hread. simpl.
  assert (Hfar : if sign
                 then LevelSet.has_singular_package
                        (LevelSet.assignDataPackageAddress c a s) c 0
                        (- (LevelSet.grid_spacing_ mesh
                            * inject_Z (LevelSet.buffer_width_ mesh)))%Q
                 else LevelSet.has_singular_package
                        (LevelSet.assignDataPackageAddress c a s) c 1
                        (LevelSet.grid_spacing_ mesh
                         * inject_Z (LevelSet.buffer_width_ mesh))%Q).
  { unfold a. destruct sign.
    - apply (Hsingular 0%nat 0%nat inside); [rewrite Hsing; reflexivity|exact H0|exact Hin].
    - apply (Hsingular 1%nat 1%nat outside); [rewrite Hsing; reflexivity|exact H1|exact Hout]. }
  destruct (isWithinCorePackage coarse_mesh_ (CellPositionFromIndex c)); simpl.
  2:{ eexists. split; [reflexivity|]. split; [apply Hkeep|].
      split; [exact Hfar|apply Hext]. }
  cbn. rewrite Hshape, Hgs.
  destruct (Qltb _ (LevelSet.grid_spacing_ mesh)) eqn:Htest.
  - cbn. eexists. split; [reflexivity|]. split; [|split].
    + unfold LevelSet.classification_invariant. cbn.
      repeat (split; [assumption|]).
      exists inside, outside. repeat split; try assumption;
        apply pool_after_create; assumption.
    + eexists _, _. cbn. split; [apply lookup_insert_eq|].
      split; [apply pool_new_package|]. rewrite Hsing.
      split; [rewrite !not_elem_of_cons; repeat split; try lia; apply not_elem_of_nil|].
      split; [reflexivity|]. split; [reflexivity|].
      apply elem_of_app. right. apply list_elem_of_singleton. reflexivity.
    + unfold LevelSet.extends_away_from. cbn. split; [|split; [|split]].
      * intros c' Hne. rewrite !lookup_insert_ne by congruence. reflexivity.
      * intros k pkg Hk. apply pool_after_create. exact Hk.
      * reflexivity.
      * intros k Hk. apply elem_of_app. left. exact Hk.
  - eexists. split; [reflexivity|]. split; [apply Hkeep|].
    split; [exact Hfar|apply Hext].
Qed.

Lemma classified_from_coarse_extends (c cell_index : Vecu) (s s' : LevelSet.t) :
  LevelSet.extends_away_from c s s' -> cell_index <> c ->
  classified_from_coarse s cell_index -> classified_from_coarse s' cell_index.
Proof.
  intros Hext Hne. unfold RefinedLevelSet.classified_from_coarse.
  destruct (_ && _).
  - apply (has_core_package_extends c cell_index s s'); assumption.
  - destruct (Qltb _ 0);
      apply (has_singular_package_extends c cell_index s s'); assumption.
Qed.

Lemma MeshIterator_classifies_from_coarse (cells : list Vecu) (s : LevelSet.t)
    (visited : list Vecu) :
  invariant s ->
  (forall c, In c visited -> classified_from_coarse s c) ->
  exists s', LevelSet.MeshIterator cells initializeDataInACellFromCoarse s = Returns s' /\
             invariant s' /\
             (forall c, In c visited \/ In c cells -> classified_from_coarse s' c).
Proof.
  revert s visited. induction cells as [|c cells IH]; intros s visited Hinv Hvis.
  - exists s. split; [reflexivity|]. split; [exact Hinv|].
    intros c [Hc|[]]. apply Hvis, Hc.
  - destruct (initializeDataInACellFromCoarse_step c s Hinv)
      as (s1 & Hrun & Hinv1 & Hc & Hext).
    destruct (IH s1 (c :: visited) Hinv1) as (s' & Hrest & Hinv' & Hall).
    { intros c' [<-|Hc']; [exact Hc|].
      destruct (decide (c' = c)) as [->|Hne]; [exact Hc|].
      apply (classified_from_coarse_extends c c' s s1 Hext Hne). apply Hvis, Hc'. }
    exists s'. simpl. rewrite Hrun. simpl. split; [exact Hrest|]. split; [exact Hinv'|].
    intros c' [Hc'|[<-|Hc']]; apply Hall.
    + left. right. exact Hc'.
    + left. left. reflexivity.
    + right. exact Hc'.
Qed.

(** X18.  On a refined level that starts with its two singular packages,
    a cell of the mesh gets a core package exactly when the core region
    of the coarse level holds the cell position and the proximity test
    holds at the cell: the coarse level can only remove core packages,
    never add one. *)
Theorem refined_core_iff_coarse_core_and_proximity (s0 : LevelSet.t)
    (cell_index : Vecu) :
  invariant s0 ->
  Forall2 (fun i n => (0 <= i < n)%Z) cell_index (LevelSet.number_of_cells_ mesh) ->
  exists s,
    classify_from_coarse s0 = Returns s /\
    (LevelSet.has_core_package s cell_index <->
     isWithinCorePackage coarse_mesh_ (CellPositionFromIndex cell_index) = true /\
     (cell_measure cell_index < LevelSet.grid_spacing_ mesh)%Q).
Proof.
  intros Hinv Hcell. pose proof Hinv as (_ & _ & Hn & _).
  destruct (MeshIterator_classifies_from_coarse
              (LevelSet.mesh_cells (LevelSet.number_of_cells_ s0)) s0 [] Hinv)
    as (s & Hrun & Hinv' & Hall).
  { intros c []. }
  exists s. split; [exact Hrun|].
  assert (Hc : classified_from_coarse s cell_index).
  { apply Hall. right. rewrite Hn. apply mesh_cells_complete. exact Hcell. }
  unfold RefinedLevelSet.classified_from_coarse in Hc.
  destruct (isWithinCorePackage coarse_mesh_ (CellPositionFromIndex cell_index));
    destruct (Qltb (cell_measure cell_index) (LevelSet.grid_spacing_ mesh)) eqn:Htest;
    simpl in Hc.
  1:{ apply Qltb_lt in Htest. split; [intros _; split; [reflexivity|exact Htest]|].
      intros _. exact Hc. }
  all: split; [|intros [Hcore Hlt];
                 first [discriminate | apply Qltb_ge in Htest; lra]].
  all: intros (a & pkg & Ha & _ & Hns & _); exfalso; apply Hns.
  all: assert (Hshared : exists i far, LevelSet.has_singular_package s cell_index i far)
         by (destruct (Qltb _ 0); eauto).
  all: destruct Hshared as (i & far & a' & pkg' & Hs & Ha' & _).
  all: rewrite Ha in Ha'; injection Ha' as <-.
  all: apply list_elem_of_lookup; exists i; exact Hs.
Qed.

(** X19.  On a refined level, a cell of the mesh that gets no core
    package shares the singular package picked by the sign of the coarse
    level's signed distance at the cell position, not by the containment
    test of the shape: the inside package, of value
    [-(grid_spacing_ * buffer_width_)], when the coarse distance is
    negative, and the outside package otherwise. *)
Theorem refined_far_field_by_coarse_sign (s0 : LevelSet.t) (cell_index : Vecu) :
  invariant s0 ->
  Forall2 (fun i n => (0 <= i < n)%Z) cell_index (LevelSet.number_of_cells_ mesh) ->
  isWithinCorePackage coarse_mesh_ (CellPositionFromIndex cell_index)
  && Qltb (cell_measure cell_index) (LevelSet.grid_spacing_ mesh) = false ->
  let far_field_distance :=
    (LevelSet.grid_spacing_ mesh * inject_Z (LevelSet.buffer_width_ mesh))%Q in
  exists s,
    classify_from_coarse s0 = Returns s /\
    (if Qltb (LevelSet.probeSignedDistance probeMesh_Real coarse_mesh_
                (CellPositionFromIndex cell_index)) 0
     then LevelSet.has_singular_package s cell_index 0 (- far_field_distance)%Q
     else LevelSet.has_singular_package s cell_index 1 far_field_distance).
Proof.
  intros Hinv Hcell Hfar far_field_distance. pose proof Hinv as (_ & _ & Hn & _).
  destruct (MeshIterator_classifies_from_coarse
              (LevelSet.mesh_cells (LevelSet.number_of_cells_ s0)) s0 [] Hinv)
    as (s & Hrun & Hinv' & Hall).
  { intros c []. }
  exists s. split; [exact Hrun|].
  assert (Hc : classified_from_coarse s cell_index).
  { apply Hall. right. rewrite Hn. apply mesh_cells_complete. exact Hcell. }
  unfold RefinedLevelSet.classified_from_coarse in Hc. rewrite Hfar in Hc. exact Hc.
Qed.

End RefinedFacts.

(** X18, witness: the cell [(3, 0)] of a refined mesh around the half
    plane [x < 4], below a coarse level whose core region holds every
    position. *)
Lemma refined_core_iff_coarse_core_and_proximity_witness :
  exists s,
    RefinedLevelSet.classify_from_coarse unit_cell_position unit_grid_position
      lower_bound_data coarse_distance_probe everywhere_core (mesh_of_ratio 1)
      (LevelSet.LevelSet_buffered half_plane_mesh) = Returns s /\
    (LevelSet.has_core_package s [3; 0]%Z <->
     everywhere_core (mesh_of_ratio 1) (unit_cell_position [3; 0]%Z) = true /\
     (LevelSet.cell_measure unit_cell_position half_plane_mesh [3; 0]%Z
      < LevelSet.grid_spacing_ half_plane_mesh)%Q).
Proof.
  apply (refined_core_iff_coarse_core_and_proximity unit_cell_position
           unit_grid_position lower_bound_data coarse_distance_probe everywhere_core
           (mesh_of_ratio 1) half_plane_mesh
           (LevelSet.LevelSet_buffered half_plane_mesh) [3; 0]%Z).
  - apply LevelSet_buffered_invariant; reflexivity.
  - repeat constructor; lia.
Defined.

(** X19, witness: the cell [(0, 0)] of the same refined mesh. *)
Lemma refined_far_field_by_coarse_sign_witness :
  exists s,
    RefinedLevelSet.classify_from_coarse unit_cell_position unit_grid_position
      lower_bound_data coarse_distance_probe everywhere_core (mesh_of_ratio 1)
      (LevelSet.LevelSet_buffered half_plane_mesh) = Returns s /\
    (if Qltb (LevelSet.probeSignedDistance coarse_distance_probe (mesh_of_ratio 1)
                (unit_cell_position [0; 0]%Z)) 0
     then LevelSet.has_singular_package s [0; 0]%Z 0
            (- (LevelSet.grid_spacing_ half_plane_mesh
                * inject_Z (LevelSet.buffer_width_ half_plane_mesh)))%Q
     else LevelSet.has_singular_package s [0; 0]%Z 1
            (LevelSet.grid_spacing_ half_plane_mesh
             * inject_Z (LevelSet.buffer_width_ half_plane_mesh))%Q).
Proof.
  apply (refined_far_field_by_coarse_sign unit_cell_position
           unit_grid_position lower_bound_data coarse_distance_probe everywhere_core
           (mesh_of_ratio 1) half_plane_mesh
           (LevelSet.LevelSet_buffered half_plane_mesh) [0; 0]%Z).
  - apply LevelSet_buffered_invariant; reflexivity.
  - repeat constructor; lia.
  - reflexivity.
Defined.

(** ** The passes [cleanInterface] does not run *)

Section ConstructionFacts.
Variable computeNormalDirection : nat -> LevelSet.t -> LevelSet.t.
Variable computeKernelIntegrals : nat -> LevelSet.t -> LevelSet.t.
Variable stepReinitialization : nat -> LevelSet.t -> LevelSet.t.
Variable markNearInterface_pkg : Real -> nat -> LevelSet.t -> LevelSet.t.
Variable redistanceInterface_pkg : nat -> LevelSet.t -> LevelSet.t.

(** X20.  [cleanInterface] never runs
    [computeNoneNormalizedNormalDirection]: whatever that operation is,
    the level set and the log after [cleanInterface] are the same.  The
    non-normalized normals are refreshed by the constructor only. *)
Theorem cleanInterface_skips_none_normalized_normals
    (none_normalized none_normalized' : nat -> LevelSet.t -> LevelSet.t)
    (isSmoothed : bool) (w : LevelSet.World) :
  LevelSet.cleanInterface computeNormalDirection none_normalized
    computeKernelIntegrals stepReinitialization markNearInterface_pkg
    redistanceInterface_pkg isSmoothed w
  = LevelSet.cleanInterface computeNormalDirection none_normalized'
      computeKernelIntegrals stepReinitialization markNearInterface_pkg
      redistanceInterface_pkg isSmoothed w.
Proof.
  unfold LevelSet.cleanInterface, LevelSet.updateKernelIntegrals,
    LevelSet.updateNormalDirection, LevelSet.reinitializeLevelSet,
    LevelSet.redistanceInterface, LevelSet.markNearInterface.
  rewrite !for_loop_iter.
  assert (Hsame : forall pkgs f, f <> updateNoneNormalizedNormalDirectionForAPackage ->
            LevelSet.PackageIterator_parallel computeNormalDirection none_normalized
              computeKernelIntegrals stepReinitialization markNearInterface_pkg
              redistanceInterface_pkg pkgs f
            = LevelSet.PackageIterator_parallel computeNormalDirection none_normalized'
                computeKernelIntegrals stepReinitialization markNearInterface_pkg
                redistanceInterface_pkg pkgs f).
  { intros pkgs f Hf. destruct f; try contradiction; reflexivity. }
  rewrite !(Hsame _ _) by discriminate. reflexivity.
Qed.

End ConstructionFacts.

(** ** [cleanInterface] of a hierarchy *)

Section HierarchyCleaningFacts.
Variable computeNormalDirection : nat -> LevelSet.t -> LevelSet.t.
Variable computeNoneNormalizedNormalDirection : nat -> LevelSet.t -> LevelSet.t.
Variable computeKernelIntegrals : nat -> LevelSet.t -> LevelSet.t.
Variable stepReinitialization : nat -> LevelSet.t -> LevelSet.t.
Variable markNearInterface_pkg : Real -> nat -> LevelSet.t -> LevelSet.t.
Variable redistanceInterface_pkg : nat -> LevelSet.t -> LevelSet.t.
Variable isSmoothed_default : bool.

Abbreviation cleanInterface_of_level :=
  (LevelSet.cleanInterface computeNormalDirection
     computeNoneNormalizedNormalDirection computeKernelIntegrals
     stepReinitialization markNearInterface_pkg redistanceInterface_pkg
     isSmoothed_default).
Abbreviation cleanInterface_of_hierarchy :=
  (MultilevelLevelSet.cleanInterface computeNormalDirection
     computeNoneNormalizedNormalDirection computeKernelIntegrals
     stepReinitialization markNearInterface_pkg redistanceInterface_pkg
     isSmoothed_default).

(** X22.  [cleanInterface] of a hierarchy cleans the last level and no
    other: on a hierarchy that holds levels it returns, the number of
    levels is kept, every level but the last is unchanged, and the last
    level and the log are those [cleanInterface] of that level gives.  On
    a hierarchy that holds no level it reads [back()] of an empty
    vector. *)
Theorem hierarchy_cleanInterface_cleans_finest_only (isSmoothed : bool)
    (ml : MultilevelLevelSet.t) (log : list (PackageFunctor * PackageSet)) :
  (MultilevelLevelSet.mesh_levels_ ml = [] ->
   cleanInterface_of_hierarchy isSmoothed (ml, log) = OutOfBounds 0) /\
  (forall finest, last (MultilevelLevelSet.mesh_levels_ ml) = Some finest ->
   exists ml',
     cleanInterface_of_hierarchy isSmoothed (ml, log)
     = Returns (ml', snd (cleanInterface_of_level (finest, log))) /\
     MultilevelLevelSet.total_levels_ ml' = MultilevelLevelSet.total_levels_ ml /\
     length (MultilevelLevelSet.mesh_levels_ ml')
     = length (MultilevelLevelSet.mesh_levels_ ml) /\
     last (MultilevelLevelSet.mesh_levels_ ml')
     = Some (fst (cleanInterface_of_level (finest, log))) /\
     (forall i, (S i < length (MultilevelLevelSet.mesh_levels_ ml))%nat ->
                MultilevelLevelSet.mesh_levels_ ml' !! i
                = MultilevelLevelSet.mesh_levels_ ml !! i)).
Proof.
  unfold MultilevelLevelSet.cleanInterface. cbn [fst snd]. split.
  - intros Hnil. rewrite Hnil. reflexivity.
  - intros finest Hlast. rewrite last_lookup in Hlast.
    replace (Init.Nat.pred (length (MultilevelLevelSet.mesh_levels_ ml)))
      with (length (MultilevelLevelSet.mesh_levels_ ml) - 1)%nat in Hlast by lia.
    pose proof (lookup_lt_Some _ _ _ Hlast) as Hlt.
    unfold vec_at. rewrite Hlast. cbn [obind]. eexists. split; [reflexivity|].
    cbn [MultilevelLevelSet.total_levels_ MultilevelLevelSet.mesh_levels_].
    split; [reflexivity|]. split; [apply length_insert|]. split.
    + rewrite last_lookup, length_insert.
      replace (Init.Nat.pred (length (MultilevelLevelSet.mesh_levels_ ml)))
        with (length (MultilevelLevelSet.mesh_levels_ ml) - 1)%nat by lia.
      apply list_lookup_insert_eq. exact Hlt.
    + intros i Hi. apply list_lookup_insert_ne. lia.
Qed.

End HierarchyCleaningFacts.

(** X22, witness: the hierarchy of ratios [1] and [2], with package
    operations that change nothing. *)
Lemma hierarchy_cleanInterface_cleans_finest_only_witness :
  exists ml',
    MultilevelLevelSet.cleanInterface no_package_op no_package_op no_package_op
      no_package_op no_marking no_package_op false false (two_levels, [])
    = Returns (ml', snd (LevelSet.cleanInterface no_package_op no_package_op
                           no_package_op no_package_op no_marking no_package_op
                           false (mesh_of_ratio 2, []))) /\
    MultilevelLevelSet.total_levels_ ml' = MultilevelLevelSet.total_levels_ two_levels /\
    length (MultilevelLevelSet.mesh_levels_ ml')
    = length (MultilevelLevelSet.mesh_levels_ two_levels) /\
    last (MultilevelLevelSet.mesh_levels_ ml')
    = Some (fst (LevelSet.cleanInterface no_package_op no_package_op
                   no_package_op no_package_op no_marking no_package_op
                   false (mesh_of_ratio 2, []))) /\
    (forall i, (S i < length (MultilevelLevelSet.mesh_levels_ two_levels))%nat ->
               MultilevelLevelSet.mesh_levels_ ml' !! i
               = MultilevelLevelSet.mesh_levels_ two_levels !! i).
Proof.
  apply (hierarchy_cleanInterface_cleans_finest_only no_package_op no_package_op
           no_package_op no_package_op no_marking no_package_op false false
           two_levels [] ).
  reflexivity.
Defined.
